(** * perception/video_recorder.py: the webcam recorder and its capture process

    A shallow embedding of [perception/video_recorder.py].  The module has two
    classes: [_Camera], a [multiprocessing.Process] whose [run] method polls a
    command queue and the camera for ever, and [VideoRecorder], the object the
    caller drives ([start], [start_recording], [stop_recording], [stop]).

    Python methods mutate [self] and may raise.  They are embedded in a
    state-and-exception monad in which the state reached when an exception is
    raised is kept, as it is in Python: an assignment made before a [raise]
    stays made.

    OpenCV ([cv2]) and [multiprocessing] are outside the repository.  Their
    objects are modelled by the few operations the module calls, and what the
    outside world decides (does the video writer open, does the camera deliver
    a frame) is an explicit input of each loop iteration.  A process runs in
    an address space of its own: it works on the camera object as it was when
    the process was created, and shares only the queue with the recorder. *)

From stdpp Require Import base option list strings numbers.

Local Open Scope Z_scope.
Local Open Scope string_scope.
Local Open Scope list_scope.

(** ** Exceptions *)

(** The values interpolated in a message by [str.format]. *)
Inductive value : Type :=
  | VStr (s : string)
  | VInt (z : Z)
  | VPair (p : Z * Z).

(** [Exception msg args] is [Exception(msg.format( *args))], the only kind of
    exception the module raises itself.  [AttributeError] is what Python raises
    for a method call on [None] or on an attribute that was never assigned,
    [TypeError] what it raises for a call with the wrong number of arguments. *)
Inductive exn : Type :=
  | Exception (msg : string) (args : list value)
  | AttributeError (attr : string)
  | TypeError (callee : string).

(** ** The monad of methods *)

Definition M (S A : Type) : Type := S → (exn + A) * S.

Global Instance M_ret {S} : MRet (M S) := λ A a s, (inr a, s).

Global Instance M_bind {S} : MBind (M S) := λ A B f m s,
  match m s with
  | (inr a, s') => f a s'
  | (inl e, s') => (inl e, s')
  end.

Definition raise {S A} (e : exn) : M S A := λ s, (inl e, s).
Definition gets {S A} (f : S → A) : M S A := λ s, (inr (f s), s).
Definition modify {S} (f : S → S) : M S () := λ s, (inr (), f s).

(** The result of a call that does not touch the state: it returns or raises. *)
Definition lift {S A} (r : exn + A) : M S A := λ s, (r, s).

(** [when_ b m] is the statement [if b: m]. *)
Definition when_ {S} (b : bool) (m : M S ()) : M S () :=
  if b then m else mret ().

(** What a call leaves behind. *)
Definition outcome {S A} (r : (exn + A) * S) : exn + A := r.1.
Definition state_after {S A} (r : (exn + A) * S) : S := r.2.

Definition raised {S A} (r : (exn + A) * S) : option exn :=
  match r.1 with inl e => Some e | inr _ => None end.

Definition returns {S A} (r : (exn + A) * S) : bool :=
  match r.1 with inl _ => false | inr _ => true end.

(** ** The collaborators: camera, video writer, command queue *)

(** One captured image. *)
Definition Frame : Type := list Z.

(** [cv2.VideoCapture]: only whether it is open matters to the module. *)
Record VideoCapture : Type := mkVideoCapture {
  cap_device : Z;
  cap_opened : bool
}.

(** [camera.release()] *)
Definition cap_release (c : VideoCapture) : VideoCapture :=
  {| cap_device := cap_device c; cap_opened := false |}.

(** [camera.read()] returns [(ret_val, frame)]; a released camera delivers
    nothing, an open one delivers what the device has, if anything. *)
Definition cap_read (c : VideoCapture) (grabbed : option Frame) : bool * option Frame :=
  if cap_opened c then
    match grabbed with
    | Some f => (true, Some f)
    | None => (false, None)
    end
  else (false, None).

(** The encoder library's code for a codec name.  The library is not part of
    the repository; the code is kept symbolic. *)
Inductive FourCC : Type :=
  | CV_FOURCC (codec : string).

(** The call [cv2.cv.CV_FOURCC( *codec)]: the star passes one argument per
    character of [codec], and the function takes exactly four. *)
Definition CV_FOURCC_call (codec : string) : exn + FourCC :=
  if decide (String.length codec = 4%nat) then inr (CV_FOURCC codec)
  else inl (TypeError "CV_FOURCC").

(** [cv2.VideoWriter]: the arguments it was built with, whether it is open,
    and the frames written so far (oldest first). *)
Record VideoWriter : Type := mkVideoWriter {
  vw_filename : string;
  vw_fourcc : FourCC;
  vw_fps : Z;
  vw_res : Z * Z;
  vw_opened : bool;
  vw_frames : list Frame
}.

(** [cv2.VideoWriter(filename, fourcc, fps, res)]; [opens] says whether the
    file could be opened with that codec. *)
Definition VideoWriter_new (filename : string) (fourcc : FourCC) (fps : Z)
    (res : Z * Z) (opens : bool) : VideoWriter :=
  {| vw_filename := filename; vw_fourcc := fourcc; vw_fps := fps;
     vw_res := res; vw_opened := opens; vw_frames := [] |}.

(** [out.release()] *)
Definition vw_release (w : VideoWriter) : VideoWriter :=
  {| vw_filename := vw_filename w; vw_fourcc := vw_fourcc w; vw_fps := vw_fps w;
     vw_res := vw_res w; vw_opened := false; vw_frames := vw_frames w |}.

(** [out.write(frame)]; a writer that is not open drops the frame. *)
Definition vw_write (f : Frame) (w : VideoWriter) : VideoWriter :=
  if vw_opened w then
    {| vw_filename := vw_filename w; vw_fourcc := vw_fourcc w; vw_fps := vw_fps w;
       vw_res := vw_res w; vw_opened := true; vw_frames := vw_frames w ++ [f] |}
  else w.

(** The tuples put on the queue: [('start', output_file)] and [('stop',)]. *)
Inductive Command : Type :=
  | CmdStart (filename : string)
  | CmdStop.

(** [multiprocessing.Queue]: [put] appends at the back, [get] takes from the
    front. *)
Definition Queue : Type := list Command.

Definition Queue_empty (q : Queue) : bool :=
  match q with [] => true | _ :: _ => false end.

Definition Queue_put (c : Command) (q : Queue) : Queue := q ++ [c].

(** ** class _Camera(Process) *)

(** The attributes of the process object.  [camera] is the capture object the
    process was given; the process has it as it was when the process was
    created, and what the recorder does to its own object later is not seen
    through it.  The queue is not an attribute here: it is the one object the
    process and the recorder share, held by [WorkerView] and [World] below. *)
Record _Camera : Type := mk_Camera {
  res : Z * Z;
  fps : Z;
  codec : string;
  camera : VideoCapture;
  fourcc : FourCC;
  recording : bool;
  out : option VideoWriter
}.

(** [_Camera.__init__(self, camera, cmd_q, res, codec, fps)]: raises when the
    codec cannot be turned into its code, and then builds no object. *)
Definition _Camera__init__ (camera : VideoCapture) (res : Z * Z) (codec : string)
    (fps : Z) : exn + _Camera :=
  match CV_FOURCC_call codec with
  | inl e => inl e
  | inr fourcc =>
      inr {| res := res; fps := fps; codec := codec; camera := camera;
             fourcc := fourcc; recording := false; out := None |}
  end.

(** What [run] can touch: the process's own attributes and the shared queue. *)
Record WorkerView : Type := mkWorkerView {
  me : _Camera;
  cmd_q : Queue
}.

Definition set_recording (b : bool) (v : WorkerView) : WorkerView :=
  {| me := {| res := res (me v); fps := fps (me v); codec := codec (me v);
              camera := camera (me v); fourcc := fourcc (me v); recording := b;
              out := out (me v) |};
     cmd_q := cmd_q v |}.

Definition set_out (o : option VideoWriter) (v : WorkerView) : WorkerView :=
  {| me := {| res := res (me v); fps := fps (me v); codec := codec (me v);
              camera := camera (me v); fourcc := fourcc (me v);
              recording := recording (me v); out := o |};
     cmd_q := cmd_q v |}.

Definition set_cmd_q (q : Queue) (v : WorkerView) : WorkerView :=
  {| me := me v; cmd_q := q |}.

Definition msg_writer : string :=
  "Unable to open video writer for file {0}, codec {1}, at fps {2}, res {3}".

(** [cmd = self.cmd_q.get()], called only when the queue is not empty (on an
    empty queue [get] would block). *)
Definition cmd_q_get : M WorkerView (option Command) := λ v,
  match cmd_q v with
  | [] => (inr None, v)
  | c :: rest => (inr (Some c), set_cmd_q rest v)
  end.

(** [self.out.release()] *)
Definition out_release : M WorkerView () :=
  o ← gets (λ v, out (me v));
  match o with
  | None => raise (AttributeError "release")
  | Some w => modify (set_out (Some (vw_release w)))
  end.

(** [self.out.isOpened()] *)
Definition out_isOpened : M WorkerView bool :=
  o ← gets (λ v, out (me v));
  match o with
  | None => raise (AttributeError "isOpened")
  | Some w => mret (vw_opened w)
  end.

(** [self.out.write(frame)] *)
Definition out_write (f : Frame) : M WorkerView () :=
  o ← gets (λ v, out (me v));
  match o with
  | None => raise (AttributeError "write")
  | Some w => modify (set_out (Some (vw_write f w)))
  end.

(** What the outside world answers during one iteration of the loop. *)
Record Env : Type := mkEnv {
  writer_opens : bool;
  grabbed : option Frame
}.

(** Lines 41-52: take one command, if there is one, and apply it. *)
Definition apply_command (env : Env) : M WorkerView () :=
  q ← gets cmd_q;
  when_ (negb (Queue_empty q))
    (cmd ← cmd_q_get;
     match cmd with
     | Some CmdStop =>
         out_release ;;
         modify (set_recording false)
     | Some (CmdStart filename) =>
         self ← gets me;
         modify (set_out (Some (VideoWriter_new filename (fourcc self) (fps self)
                                  (res self) (writer_opens env)))) ;;
         opened ← out_isOpened;
         when_ (negb opened)
           (raise (Exception msg_writer
                     [VStr filename; VStr (codec self); VInt (fps self);
                      VPair (res self)])) ;;
         modify (set_recording true)
     | None => mret ()
     end).

(** Lines 54-57: when recording, read one frame and write it if there is one. *)
Definition capture_frame (env : Env) (camera : VideoCapture) : M WorkerView () :=
  r ← gets (λ v, recording (me v));
  when_ r
    (let '(ret_val, frame) := cap_read camera (grabbed env) in
     match ret_val, frame with
     | true, Some f => out_write f
     | _, _ => mret ()
     end).

(** One iteration of [while True] in [_Camera.run], reading from [camera],
    which a running process takes to be its own [self.camera]. *)
Definition loop_body (env : Env) (camera : VideoCapture) : M WorkerView () :=
  apply_command env ;;
  capture_frame env camera.

(** [run], for as many iterations as there are answers from the outside world.
    The loop has no exit: it goes on until an exception ends the process. *)
Fixpoint run (envs : list Env) (camera : VideoCapture) : M WorkerView () :=
  match envs with
  | [] => mret ()
  | env :: envs' => loop_body env camera ;; run envs' camera
  end.

(** ** Processes *)

(** A [multiprocessing.Process] object: built, then started, then ended
    (terminated by its parent, or by an exception escaping [run]). *)
Inductive ProcessState : Type :=
  | Initial
  | Alive
  | Ended.

Record Process : Type := mkProcess {
  target : _Camera;
  pstate : ProcessState
}.

Definition is_alive (p : Process) : bool :=
  match pstate p with Alive => true | _ => false end.

(** ** class VideoRecorder *)

(** The attributes of a recorder.  [_cmd_q] and [_actual_camera] are the queue
    and the capture object themselves: both are created once, in [__init__].
    Every [_Camera] shares the queue and is handed the capture object as it is
    when [start] builds the process.  [_camera] is the process object last
    assigned by [start], by its index in the process table; the attribute does
    not exist before the first [start] that gets that far. *)
Record VideoRecorder : Type := mkVideoRecorder {
  _res : Z * Z;
  _codec : string;
  _fps : Z;
  _cmd_q : Queue;
  _actual_camera : VideoCapture;
  _recording : bool;
  _started : bool;
  _camera : option nat
}.

(** One recorder and every process it has created, oldest first. *)
Record World : Type := mkWorld {
  self : VideoRecorder;
  processes : list Process
}.

Definition on_self (f : VideoRecorder → VideoRecorder) (w : World) : World :=
  {| self := f (self w); processes := processes w |}.

Definition with_started (b : bool) (r : VideoRecorder) : VideoRecorder :=
  {| _res := _res r; _codec := _codec r; _fps := _fps r; _cmd_q := _cmd_q r;
     _actual_camera := _actual_camera r; _recording := _recording r;
     _started := b; _camera := _camera r |}.

Definition with_recording (b : bool) (r : VideoRecorder) : VideoRecorder :=
  {| _res := _res r; _codec := _codec r; _fps := _fps r; _cmd_q := _cmd_q r;
     _actual_camera := _actual_camera r; _recording := b;
     _started := _started r; _camera := _camera r |}.

Definition with_cmd_q (q : Queue) (r : VideoRecorder) : VideoRecorder :=
  {| _res := _res r; _codec := _codec r; _fps := _fps r; _cmd_q := q;
     _actual_camera := _actual_camera r; _recording := _recording r;
     _started := _started r; _camera := _camera r |}.

Definition with_actual_camera (c : VideoCapture) (r : VideoRecorder) : VideoRecorder :=
  {| _res := _res r; _codec := _codec r; _fps := _fps r; _cmd_q := _cmd_q r;
     _actual_camera := c; _recording := _recording r;
     _started := _started r; _camera := _camera r |}.

Definition with_camera (p : option nat) (r : VideoRecorder) : VideoRecorder :=
  {| _res := _res r; _codec := _codec r; _fps := _fps r; _cmd_q := _cmd_q r;
     _actual_camera := _actual_camera r; _recording := _recording r;
     _started := _started r; _camera := p |}.

Definition msg_device : string :=
  "Unable to open video device for video{0}".
Definition msg_must_start : string :=
  "Must start the video recorder first by calling .start()!".
Definition msg_already_recording : string :=
  "Cannot record a video while one is already recording!".
Definition msg_not_recording : string :=
  "Cannot stop a video recording when it's not recording!".
Definition msg_stop_before_start : string :=
  "Cannot stop a video recorder before starting it!".

(** [VideoRecorder.__init__(self, device_id, res, codec, fps)]; [device_opens]
    says whether [cv2.VideoCapture(device_id)] could open the device. *)
Definition VideoRecorder__init__ (device_id : Z) (res : Z * Z) (codec : string)
    (fps : Z) (device_opens : bool) : exn + VideoRecorder :=
  let camera := {| cap_device := device_id; cap_opened := device_opens |} in
  if negb (cap_opened camera) then
    inl (Exception msg_device [VInt device_id])
  else
    inr {| _res := res; _codec := codec; _fps := fps; _cmd_q := [];
           _actual_camera := camera; _recording := false; _started := false;
           _camera := None |}.

(** The defaults of [__init__]: [res=(640, 480), codec='XVID', fps=30]. *)
Definition default_res : Z * Z := (640, 480).
Definition default_codec : string := "XVID".
Definition default_fps : Z := 30.

(** [Process.start()] and [Process.terminate()] on the process object at
    [pid]. *)
Definition Process_start (pid : nat) : M World () :=
  modify (λ w, {| self := self w;
                  processes := alter (λ p, {| target := target p; pstate := Alive |})
                                 pid (processes w) |}).

Definition Process_terminate (pid : nat) : M World () :=
  modify (λ w, {| self := self w;
                  processes := alter (λ p, {| target := target p; pstate := Ended |})
                                 pid (processes w) |}).

(** [_Camera(...)]: a new process object, not yet started; returns its index. *)
Definition new_process (c : _Camera) : M World nat := λ w,
  (inr (length (processes w)),
   {| self := self w;
      processes := processes w ++ [{| target := c; pstate := Initial |}] |}).

(** [VideoRecorder.start(self)] *)
Definition start : M World () :=
  modify (on_self (with_started true)) ;;
  r ← gets self;
  c ← lift (_Camera__init__ (_actual_camera r) (_res r) (_codec r) (_fps r));
  pid ← new_process c;
  modify (on_self (with_camera (Some pid))) ;;
  Process_start pid.

(** [VideoRecorder.start_recording(self, output_file)] *)
Definition start_recording (output_file : string) : M World () :=
  started ← gets (λ w, _started (self w));
  when_ (negb started) (raise (Exception msg_must_start [])) ;;
  rec ← gets (λ w, _recording (self w));
  when_ rec (raise (Exception msg_already_recording [])) ;;
  modify (on_self (with_recording true)) ;;
  modify (on_self (λ r, with_cmd_q (Queue_put (CmdStart output_file) (_cmd_q r)) r)).

(** [VideoRecorder.stop_recording(self)] *)
Definition stop_recording : M World () :=
  rec ← gets (λ w, _recording (self w));
  when_ (negb rec) (raise (Exception msg_not_recording [])) ;;
  modify (on_self (λ r, with_cmd_q (Queue_put CmdStop (_cmd_q r)) r)) ;;
  modify (on_self (with_recording false)).

(** [VideoRecorder.stop(self)] *)
Definition stop : M World () :=
  started ← gets (λ w, _started (self w));
  when_ (negb started) (raise (Exception msg_stop_before_start [])) ;;
  modify (on_self (with_started false)) ;;
  modify (on_self (λ r, with_actual_camera (cap_release (_actual_camera r)) r)) ;;
  cam ← gets (λ w, _camera (self w));
  match cam with
  | None => raise (AttributeError "_camera")
  | Some pid => Process_terminate pid
  end.

(** ** The process scheduler *)

(** One iteration of the loop of the process at [pid], if it is alive.  The
    iteration works on the recorder's queue and on the process's own camera
    object; an exception that escapes [run] ends the process. *)
Definition worker_step (pid : nat) (env : Env) (w : World) : World :=
  match processes w !! pid with
  | Some p =>
      if is_alive p then
        let r := loop_body env (camera (target p))
                   {| me := target p; cmd_q := _cmd_q (self w) |} in
        {| self := with_cmd_q (cmd_q (state_after r)) (self w);
           processes :=
             <[pid := {| target := me (state_after r);
                         pstate := if returns r then Alive else Ended |}]>
               (processes w) |}
      else w
  | None => w
  end.

(** What can happen next: the caller calls a method, or some process runs one
    iteration of its loop. *)
Inductive Event : Type :=
  | call_start
  | call_start_recording (output_file : string)
  | call_stop_recording
  | call_stop
  | iterate (pid : nat) (env : Env).

Definition step (ev : Event) (w : World) : World :=
  match ev with
  | call_start => state_after (start w)
  | call_start_recording f => state_after (start_recording f w)
  | call_stop_recording => state_after (stop_recording w)
  | call_stop => state_after (stop w)
  | iterate pid env => worker_step pid env w
  end.

Definition steps (evs : list Event) (w : World) : World :=
  foldl (λ w ev, step ev w) w evs.

(** The world right after [VideoRecorder(device_id, res, codec, fps)]. *)
Definition fresh (r : VideoRecorder) : World :=
  {| self := r; processes := [] |}.

(** ** The error taxonomy of the specification *)

(** Lifecycle misuse: one of the four messages of [start_recording],
    [stop_recording] and [stop]. *)
Definition InvalidStateError (e : exn) : Prop :=
  e = Exception msg_must_start [] ∨
  e = Exception msg_already_recording [] ∨
  e = Exception msg_not_recording [] ∨
  e = Exception msg_stop_before_start [].

Definition EncoderOpenError (filename codec : string) (fps : Z) (res : Z * Z) : exn :=
  Exception msg_writer [VStr filename; VStr codec; VInt fps; VPair res].

Definition DeviceOpenError (device_id : Z) : exn :=
  Exception msg_device [VInt device_id].


(** ** Observations and invariants *)

(** The process holds a video writer that is open. *)
Definition encoder_open (c : _Camera) : bool :=
  match out c with
  | Some w => vw_opened w
  | None => false
  end.

(** The loop invariant of [run]: recording exactly when an open writer is held. *)
Definition recording_iff_encoder (c : _Camera) : Prop :=
  recording c = encoder_open c.

(** The frames the process has written to the writer it holds. *)
Definition frames_written (c : _Camera) : list Frame :=
  match out c with
  | Some w => vw_frames w
  | None => []
  end.

(** How many processes are running. *)
Fixpoint alive_count (ps : list Process) : nat :=
  match ps with
  | [] => 0%nat
  | p :: ps' => ((if is_alive p then 1 else 0) + alive_count ps')%nat
  end.

(** The command an event makes a process take from the queue, if any: the
    front of the queue, when a running process iterates. *)
Definition observes (ev : Event) (w : World) : list Command :=
  match ev with
  | iterate pid _ =>
      match processes w !! pid with
      | Some p => if is_alive p then take 1 (_cmd_q (self w)) else []
      | None => []
      end
  | _ => []
  end.

(** The command an event puts on the queue, if any. *)
Definition enqueues (ev : Event) (w : World) : list Command :=
  match ev with
  | call_start_recording f => if returns (start_recording f w) then [CmdStart f] else []
  | call_stop_recording => if returns (stop_recording w) then [CmdStop] else []
  | _ => []
  end.

(** Everything taken from, and put on, the queue along a run, in order. *)
Fixpoint observed (evs : list Event) (w : World) : list Command :=
  match evs with
  | [] => []
  | ev :: evs' => observes ev w ++ observed evs' (step ev w)
  end.

Fixpoint enqueued (evs : list Event) (w : World) : list Command :=
  match evs with
  | [] => []
  | ev :: evs' => enqueues ev w ++ enqueued evs' (step ev w)
  end.

(** Worlds that arise from a constructed recorder by method calls and loop
    iterations, in any interleaving. *)
Definition reachable (w : World) : Prop :=
  ∃ device_id res codec fps opens r evs,
    VideoRecorder__init__ device_id res codec fps opens = inr r ∧
    w = steps evs (fresh r).

(** What holds of every reachable world. *)
Record consistent (w : World) : Prop := mkConsistent {
  camera_in_table :
    ∀ pid, _camera (self w) = Some pid → (pid < length (processes w))%nat;
  started_has_camera :
    String.length (_codec (self w)) = 4%nat →
    _started (self w) = true → is_Some (_camera (self w));
  loop_invariant :
    ∀ pid p, processes w !! pid = Some p → pstate p ≠ Ended →
      recording_iff_encoder (target p)
}.

(** ** Sample worlds *)

(** [VideoRecorder(0)] on a machine where device 0 opens. *)
Definition recorder0 : VideoRecorder :=
  {| _res := default_res; _codec := default_codec; _fps := default_fps;
     _cmd_q := []; _actual_camera := {| cap_device := 0; cap_opened := true |};
     _recording := false; _started := false; _camera := None |}.

(** ... after [start()] *)
Definition world_started : World := step call_start (fresh recorder0).

(** ... after [start(); start_recording("a.avi")] *)
Definition world_recording : World :=
  step (call_start_recording "a.avi") world_started.

(** An iteration in which the writer opens and the camera delivers a frame,
    and one in which neither happens. *)
Definition env_good : Env := {| writer_opens := true; grabbed := Some [1; 2; 3] |}.
Definition env_bad : Env := {| writer_opens := false; grabbed := None |}.

(** A process that is recording to [a.avi]. *)
Definition camera_recording : _Camera :=
  {| res := default_res; fps := default_fps; codec := default_codec;
     camera := {| cap_device := 0; cap_opened := true |};
     fourcc := CV_FOURCC default_codec; recording := true;
     out := Some (VideoWriter_new "a.avi" (CV_FOURCC default_codec) default_fps
                    default_res true) |}.

(** A process that has just been started: not recording, no writer. *)
Definition camera_idle : _Camera :=
  {| res := default_res; fps := default_fps; codec := default_codec;
     camera := {| cap_device := 0; cap_opened := true |};
     fourcc := CV_FOURCC default_codec; recording := false; out := None |}.

(** [VideoRecorder(0, (320, 240), 'XVID', 15)], and a whole session with it:
    start, record [clip1.avi] for three iterations of which the second gets no
    frame, stop recording, let the process take the stop command, stop. *)
Definition recorder1 : VideoRecorder :=
  {| _res := (320, 240); _codec := "XVID"; _fps := 15;
     _cmd_q := []; _actual_camera := {| cap_device := 0; cap_opened := true |};
     _recording := false; _started := false; _camera := None |}.

Definition session : list Event :=
  [call_start; call_start_recording "clip1.avi";
   iterate 0 env_good; iterate 0 env_bad; iterate 0 env_good;
   call_stop_recording; iterate 0 env_good; call_stop].

(** ** Further observations *)

(** Whether a run of commands respects the order the two guards impose,
    starting from a recording flag: a start only when not recording, a stop
    only when recording.  The result is the flag after the last command. *)
Fixpoint alternates (rec : bool) (cmds : list Command) : option bool :=
  match cmds with
  | [] => Some rec
  | CmdStart _ :: cmds' => if rec then None else alternates true cmds'
  | CmdStop :: cmds' => if rec then alternates false cmds' else None
  end.

(** The frames a camera hands over in a series of iterations, in order. *)
Definition delivered (camera : VideoCapture) (envs : list Env) : list Frame :=
  if cap_opened camera then omap grabbed envs else [].

(** Whether an event is an iteration of the process at [pid]. *)
Definition iterates (pid : nat) (ev : Event) : bool :=
  match ev with
  | iterate i _ => bool_decide (i = pid)
  | _ => false
  end.

(** The events of one session after [start()]: recordings are started and
    stopped and processes iterate, every writer opens, and the recorder is
    neither started again nor stopped. *)
Definition session_event (ev : Event) : bool :=
  match ev with
  | call_start | call_stop => false
  | call_start_recording _ | call_stop_recording => true
  | iterate _ env => writer_opens env
  end.

(** How many times [start()] is called in a run. *)
Fixpoint count_starts (evs : list Event) : nat :=
  match evs with
  | [] => 0%nat
  | call_start :: evs' => S (count_starts evs')
  | _ :: evs' => count_starts evs'
  end.

(** A process carries a given resolution, codec and frame rate, and so does
    the writer it holds, if any. *)
Definition configured (rs : Z * Z) (cd : string) (fp : Z) (c : _Camera) : Prop :=
  res c = rs ∧ fps c = fp ∧ codec c = cd ∧ fourcc c = CV_FOURCC cd ∧
  ∀ vw, out c = Some vw →
    vw_fourcc vw = CV_FOURCC cd ∧ vw_fps vw = fp ∧ vw_res vw = rs.


(** ... after [start(); start()] *)
Definition world_started_twice : World := step call_start world_started.

(** ... after [start(); start_recording("a.avi"); stop()] *)
Definition world_stopped_recording : World := step call_stop world_recording.

(** [VideoRecorder(0, codec='MP4')]: the constructor does not look at the
    codec, which has three characters here. *)
Definition recorder_mp4 : VideoRecorder :=
  {| _res := default_res; _codec := "MP4"; _fps := default_fps;
     _cmd_q := []; _actual_camera := {| cap_device := 0; cap_opened := true |};
     _recording := false; _started := false; _camera := None |}.


(** The recorder and all its processes carry the given configuration. *)
Definition world_configured (d : Z) (rs : Z * Z) (cd : string) (fp : Z) (w : World) : Prop :=
  _res (self w) = rs ∧ _codec (self w) = cd ∧ _fps (self w) = fp ∧
  cap_device (_actual_camera (self w)) = d ∧
  ∀ pid p, processes w !! pid = Some p → configured rs cd fp (target p).

(** The state of a session: one running process, which records exactly when
    it holds an open writer, and whose recording flag, taken through the
    commands still on the queue, gives the recorder's own flag. *)
Definition in_session (w : World) : Prop :=
  ∃ c, processes w = [{| target := c; pstate := Alive |}] ∧
       recording_iff_encoder c ∧
       alternates (recording c) (_cmd_q (self w)) = Some (_recording (self w)) ∧
       _started (self w) = true.

(** ** What the four methods compute *)

Lemma _Camera__init__eq (cam : VideoCapture) (rs : Z * Z) (cd : string) (fp : Z) :
  _Camera__init__ cam rs cd fp =
  if decide (String.length cd = 4%nat) then
    inr {| res := rs; fps := fp; codec := cd; camera := cam; fourcc := CV_FOURCC cd;
           recording := false; out := None |}
  else inl (TypeError "CV_FOURCC").
Proof.
  unfold _Camera__init__, CV_FOURCC_call.
  destruct (decide (String.length cd = 4%nat)); reflexivity.
Qed.

Lemma alter_snoc {A} (f : A → A) (l : list A) (x : A) :
  alter f (length l) (l ++ [x]) = l ++ [f x].
Proof. induction l as [|y l IH]; cbn; [reflexivity|]. f_equal. exact IH. Qed.

Lemma start_eq (w : World) :
  start w =
  if decide (String.length (_codec (self w)) = 4%nat) then
    (inr (),
     {| self := with_camera (Some (length (processes w))) (with_started true (self w));
        processes :=
          processes w ++
            [{| target := {| res := _res (self w); fps := _fps (self w);
                             codec := _codec (self w);
                             camera := _actual_camera (self w);
                             fourcc := CV_FOURCC (_codec (self w));
                             recording := false; out := None |};
                pstate := Alive |}] |})
  else (inl (TypeError "CV_FOURCC"), on_self (with_started true) w).
Proof.
  unfold start, mbind, M_bind, modify, gets, lift, new_process, Process_start. cbn.
  rewrite _Camera__init__eq.
  destruct (decide (String.length (_codec (self w)) = 4%nat)); [|reflexivity].
  unfold modify, on_self. cbn. rewrite alter_snoc. reflexivity.
Qed.

(** [start] touches the flag [_started], the process reference and the process
    table only, and it adds a process exactly when it returns. *)
Lemma start_self (w : World) :
  _started (self (state_after (start w))) = true ∧
  _recording (self (state_after (start w))) = _recording (self w) ∧
  _cmd_q (self (state_after (start w))) = _cmd_q (self w) ∧
  _actual_camera (self (state_after (start w))) = _actual_camera (self w) ∧
  _res (self (state_after (start w))) = _res (self w) ∧
  _codec (self (state_after (start w))) = _codec (self w) ∧
  _fps (self (state_after (start w))) = _fps (self w).
Proof.
  rewrite start_eq.
  destruct (decide (String.length (_codec (self w)) = 4%nat)); repeat split.
Qed.

Lemma start_processes (w : World) :
  processes (state_after (start w)) =
  processes w ++
    (if decide (String.length (_codec (self w)) = 4%nat) then
       [{| target := {| res := _res (self w); fps := _fps (self w);
                        codec := _codec (self w); camera := _actual_camera (self w);
                        fourcc := CV_FOURCC (_codec (self w));
                        recording := false; out := None |};
           pstate := Alive |}]
     else []).
Proof.
  rewrite start_eq.
  destruct (decide (String.length (_codec (self w)) = 4%nat)); cbn;
    [reflexivity|symmetry; apply app_nil_r].
Qed.

Lemma start_raised (w : World) :
  raised (start w) =
  if decide (String.length (_codec (self w)) = 4%nat) then None
  else Some (TypeError "CV_FOURCC").
Proof.
  rewrite start_eq.
  destruct (decide (String.length (_codec (self w)) = 4%nat)); reflexivity.
Qed.

Lemma start_recording_eq (f : string) (w : World) :
  start_recording f w =
  if negb (_started (self w)) then (inl (Exception msg_must_start []), w)
  else if _recording (self w) then (inl (Exception msg_already_recording []), w)
  else (inr (),
        on_self (λ r, with_cmd_q (_cmd_q r ++ [CmdStart f]) (with_recording true r)) w).
Proof.
  destruct w as [[r c f' q a rec st cam] ps].
  destruct st, rec; reflexivity.
Qed.

Lemma stop_recording_eq (w : World) :
  stop_recording w =
  if negb (_recording (self w)) then (inl (Exception msg_not_recording []), w)
  else (inr (),
        on_self (λ r, with_recording false (with_cmd_q (_cmd_q r ++ [CmdStop]) r)) w).
Proof.
  destruct w as [[r c f' q a rec st cam] ps].
  destruct rec; reflexivity.
Qed.

Lemma stop_eq (w : World) :
  stop w =
  if negb (_started (self w)) then (inl (Exception msg_stop_before_start []), w)
  else
    let r' := with_actual_camera (cap_release (_actual_camera (self w)))
                (with_started false (self w)) in
    match _camera (self w) with
    | None => (inl (AttributeError "_camera"), {| self := r'; processes := processes w |})
    | Some pid =>
        (inr (),
         {| self := r';
            processes := alter (λ p, {| target := target p; pstate := Ended |}) pid
                           (processes w) |})
    end.
Proof.
  destruct w as [[r c f' q a rec st cam] ps].
  destruct st; [destruct cam|]; reflexivity.
Qed.

(** ** What one iteration of the loop computes *)

Lemma apply_command_empty (env : Env) (c : _Camera) :
  apply_command env {| me := c; cmd_q := [] |} = (inr (), {| me := c; cmd_q := [] |}).
Proof. reflexivity. Qed.

Lemma apply_command_stop (env : Env) (c : _Camera) (rest : Queue) :
  apply_command env {| me := c; cmd_q := CmdStop :: rest |} =
  match out c with
  | None => (inl (AttributeError "release"), {| me := c; cmd_q := rest |})
  | Some w =>
      (inr (),
       {| me := {| res := res c; fps := fps c; codec := codec c;
                 camera := camera c; fourcc := fourcc c;
                   recording := false; out := Some (vw_release w) |};
          cmd_q := rest |})
  end.
Proof. destruct c as [r f cd cam fc rec [w|]]; reflexivity. Qed.

Lemma apply_command_start (env : Env) (c : _Camera) (f : string) (rest : Queue) :
  apply_command env {| me := c; cmd_q := CmdStart f :: rest |} =
  let w := VideoWriter_new f (fourcc c) (fps c) (res c) (writer_opens env) in
  if writer_opens env then
    (inr (),
     {| me := {| res := res c; fps := fps c; codec := codec c;
                 camera := camera c; fourcc := fourcc c;
                 recording := true; out := Some w |};
        cmd_q := rest |})
  else
    (inl (EncoderOpenError f (codec c) (fps c) (res c)),
     {| me := {| res := res c; fps := fps c; codec := codec c;
                 camera := camera c; fourcc := fourcc c;
                 recording := recording c; out := Some w |};
        cmd_q := rest |}).
Proof. destruct c as [r fp cd cam fc rec o], env as [[] g]; reflexivity. Qed.

Lemma capture_frame_eq (env : Env) (camera : VideoCapture) (v : WorkerView) :
  capture_frame env camera v =
  if recording (me v) then
    match cap_read camera (grabbed env) with
    | (true, Some f) =>
        match out (me v) with
        | None => (inl (AttributeError "write"), v)
        | Some w => (inr (), set_out (Some (vw_write f w)) v)
        end
    | _ => (inr (), v)
    end
  else (inr (), v).
Proof.
  destruct v as [[r fp cd cam fc rec o] q]. unfold capture_frame.
  destruct rec; [|reflexivity]. cbn.
  destruct (cap_read camera (grabbed env)) as [[] [f|]]; try reflexivity.
  destruct o; reflexivity.
Qed.

Lemma loop_body_eq (env : Env) (camera : VideoCapture) (v : WorkerView) :
  loop_body env camera v =
  match apply_command env v with
  | (inr _, v') => capture_frame env camera v'
  | (inl e, v') => (inl e, v')
  end.
Proof. reflexivity. Qed.

Lemma run_cons (env : Env) (envs : list Env) (camera : VideoCapture) (v : WorkerView) :
  run (env :: envs) camera v =
  match loop_body env camera v with
  | (inr _, v') => run envs camera v'
  | (inl e, v') => (inl e, v')
  end.
Proof. reflexivity. Qed.

(** An iteration takes the front command off the queue when there is one, and
    leaves an empty queue empty, whatever else happens. *)
Lemma apply_command_queue (env : Env) (v : WorkerView) :
  cmd_q (state_after (apply_command env v)) = drop 1 (cmd_q v).
Proof.
  destruct v as [c [|[f|] rest]].
  - reflexivity.
  - rewrite apply_command_start. cbn. destruct (writer_opens env); reflexivity.
  - rewrite apply_command_stop. destruct (out c); reflexivity.
Qed.

Lemma capture_frame_queue (env : Env) (camera : VideoCapture) (v : WorkerView) :
  cmd_q (state_after (capture_frame env camera v)) = cmd_q v.
Proof.
  rewrite capture_frame_eq.
  destruct (recording (me v)); [|reflexivity].
  destruct (cap_read camera (grabbed env)) as [[] [f|]]; try reflexivity.
  destruct (out (me v)); reflexivity.
Qed.

Lemma loop_body_queue (env : Env) (camera : VideoCapture) (v : WorkerView) :
  cmd_q (state_after (loop_body env camera v)) = drop 1 (cmd_q v).
Proof.
  rewrite loop_body_eq. pose proof (apply_command_queue env v) as H.
  destruct (apply_command env v) as [[e|[]] v']; cbn in H |- *.
  - exact H.
  - rewrite capture_frame_queue. exact H.
Qed.

(** ** The loop invariant *)

Lemma _Camera__init__invariant (cam : VideoCapture) (r : Z * Z) (cd : string) (f : Z)
    (c : _Camera) :
  _Camera__init__ cam r cd f = inr c → recording_iff_encoder c.
Proof.
  rewrite _Camera__init__eq. destruct (decide (String.length cd = 4%nat)); [|discriminate].
  intros [= <-]. reflexivity.
Qed.

Ltac start_cases w :=
  rewrite (start_eq w);
  destruct (decide (String.length (_codec (self w)) = 4%nat)) as [Hcodec|Hcodec].

Lemma apply_command_invariant (env : Env) (v v' : WorkerView) :
  recording_iff_encoder (me v) →
  apply_command env v = (inr (), v') →
  recording_iff_encoder (me v').
Proof.
  destruct v as [c [|[f|] rest]]; intros Hinv.
  - rewrite apply_command_empty. intros [= <-]. exact Hinv.
  - rewrite apply_command_start. cbn.
    destruct (writer_opens env) eqn:Hopen; [|discriminate].
    intros [= <-]. reflexivity.
  - rewrite apply_command_stop.
    destruct (out c) as [w|]; [|discriminate].
    intros [= <-]. reflexivity.
Qed.

Lemma vw_write_opened (f : Frame) (w : VideoWriter) :
  vw_opened (vw_write f w) = vw_opened w.
Proof. unfold vw_write. destruct (vw_opened w) eqn:H; cbn; congruence. Qed.

Lemma capture_frame_invariant (env : Env) (camera : VideoCapture) (v v' : WorkerView) :
  recording_iff_encoder (me v) →
  capture_frame env camera v = (inr (), v') →
  recording_iff_encoder (me v').
Proof.
  intros Hinv. rewrite capture_frame_eq.
  destruct (recording (me v)) eqn:Hrec; [|intros [= <-]; exact Hinv].
  destruct (cap_read camera (grabbed env)) as [[] [f|]];
    try (intros [= <-]; exact Hinv).
  destruct (out (me v)) as [w|] eqn:Hout; [|discriminate].
  intros [= <-]. unfold recording_iff_encoder, encoder_open in *. cbn.
  rewrite Hout in Hinv. rewrite vw_write_opened. congruence.
Qed.

Lemma loop_body_invariant (env : Env) (camera : VideoCapture) (v v' : WorkerView) :
  recording_iff_encoder (me v) →
  loop_body env camera v = (inr (), v') →
  recording_iff_encoder (me v').
Proof.
  intros Hinv. rewrite loop_body_eq.
  destruct (apply_command env v) as [[e|[]] v1] eqn:H1; [discriminate|].
  intros H2. eapply capture_frame_invariant; [|exact H2].
  eapply apply_command_invariant; eassumption.
Qed.

Lemma run_invariant (envs : list Env) (camera : VideoCapture) (v v' : WorkerView) :
  recording_iff_encoder (me v) →
  run envs camera v = (inr (), v') →
  recording_iff_encoder (me v').
Proof.
  revert v. induction envs as [|env envs IH]; intros v Hinv.
  - intros [= <-]. exact Hinv.
  - rewrite run_cons.
    destruct (loop_body env camera v) as [[e|[]] v1] eqn:H1; [discriminate|].
    apply IH. eapply loop_body_invariant; eassumption.
Qed.

(** Under the invariant the frame phase cannot raise. *)
Lemma capture_frame_returns (env : Env) (camera : VideoCapture) (v : WorkerView) :
  recording_iff_encoder (me v) →
  raised (capture_frame env camera v) = None.
Proof.
  intros Hinv. rewrite capture_frame_eq.
  destruct (recording (me v)) eqn:Hrec; [|reflexivity].
  destruct (cap_read camera (grabbed env)) as [[] [f|]]; try reflexivity.
  unfold recording_iff_encoder, encoder_open in Hinv.
  destruct (out (me v)); [reflexivity|congruence].
Qed.

(** Under the invariant an iteration raises in two cases only: a stop command
    when no writer was ever assigned, and a start command whose writer does not
    open. *)
Lemma loop_body_raised (env : Env) (camera : VideoCapture) (v : WorkerView) :
  recording_iff_encoder (me v) →
  raised (loop_body env camera v) =
  match cmd_q v with
  | [] => None
  | CmdStop :: _ =>
      match out (me v) with
      | None => Some (AttributeError "release")
      | Some _ => None
      end
  | CmdStart f :: _ =>
      if writer_opens env then None
      else Some (EncoderOpenError f (codec (me v)) (fps (me v)) (res (me v)))
  end.
Proof.
  intros Hinv. rewrite loop_body_eq.
  destruct (apply_command env v) as [[e|[]] v1] eqn:H1.
  - destruct v as [c [|[f|] rest]]; cbn [cmd_q me].
    + rewrite apply_command_empty in H1. discriminate.
    + rewrite apply_command_start in H1. cbn in H1.
      destruct (writer_opens env); [discriminate|].
      injection H1 as <- <-. reflexivity.
    + rewrite apply_command_stop in H1.
      destruct (out c); [discriminate|]. injection H1 as <- <-. reflexivity.
  - rewrite capture_frame_returns by (eapply apply_command_invariant; eassumption).
    destruct v as [c [|[f|] rest]]; cbn [cmd_q me].
    + reflexivity.
    + rewrite apply_command_start in H1. cbn in H1.
      destruct (writer_opens env); [reflexivity|discriminate].
    + rewrite apply_command_stop in H1.
      destruct (out c); [reflexivity|discriminate].
Qed.

(** ** Reachable worlds *)

Lemma steps_cons (ev : Event) (evs : list Event) (w : World) :
  steps (ev :: evs) w = steps evs (step ev w).
Proof. reflexivity. Qed.

Lemma steps_app (evs1 evs2 : list Event) (w : World) :
  steps (evs1 ++ evs2) w = steps evs2 (steps evs1 w).
Proof. apply foldl_app. Qed.

Lemma fresh_consistent (r : VideoRecorder) :
  _started r = false → _camera r = None → consistent (fresh r).
Proof.
  intros Hs Hc. split; cbn.
  - intros pid. rewrite Hc. discriminate.
  - rewrite Hs. discriminate.
  - intros pid p H. discriminate.
Qed.

Lemma snoc_lookup {A} (l : list A) (x y : A) (i : nat) :
  (l ++ [x]) !! i = Some y → l !! i = Some y ∨ (i = length l ∧ y = x).
Proof.
  intros H. destruct (decide (i < length l)%nat) as [Hlt|Hge].
  - left. rewrite lookup_app_l in H by exact Hlt. exact H.
  - right. rewrite lookup_app_r in H by lia.
    destruct (i - length l)%nat eqn:Hi; cbn in H; [|discriminate].
    injection H as <-. split; [lia|reflexivity].
Qed.

Lemma VideoRecorder__init__fresh (device_id : Z) (rs : Z * Z) (cd : string) (fp : Z)
    (opens : bool) (r : VideoRecorder) :
  VideoRecorder__init__ device_id rs cd fp opens = inr r →
  opens = true ∧
  r = {| _res := rs; _codec := cd; _fps := fp; _cmd_q := [];
         _actual_camera := {| cap_device := device_id; cap_opened := true |};
         _recording := false; _started := false; _camera := None |}.
Proof.
  unfold VideoRecorder__init__. destruct opens; cbn; [|discriminate].
  intros [= <-]. split; reflexivity.
Qed.

Lemma start_consistent (w : World) : consistent w → consistent (state_after (start w)).
Proof.
  intros [Hcam Hst Hinv]. start_cases w; split; cbn.
  - intros pid [= <-]. rewrite length_app. cbn. lia.
  - intros _ _. eexists; reflexivity.
  - intros pid p Hp Hne. apply snoc_lookup in Hp as [Hp|[_ ->]].
    + eapply Hinv; eassumption.
    + reflexivity.
  - exact Hcam.
  - intros Hlen. contradiction.
  - exact Hinv.
Qed.

Lemma start_recording_consistent (f : string) (w : World) :
  consistent w → consistent (state_after (start_recording f w)).
Proof.
  intros Hw. pose proof Hw as [Hcam Hst Hinv]. rewrite start_recording_eq.
  destruct (negb (_started (self w))); [exact Hw|].
  destruct (_recording (self w)); [exact Hw|]. split; assumption.
Qed.

Lemma stop_recording_consistent (w : World) :
  consistent w → consistent (state_after (stop_recording w)).
Proof.
  intros Hw. pose proof Hw as [Hcam Hst Hinv]. rewrite stop_recording_eq.
  destruct (negb (_recording (self w))); [exact Hw|]. split; assumption.
Qed.

Lemma stop_consistent (w : World) : consistent w → consistent (state_after (stop w)).
Proof.
  intros Hw. pose proof Hw as [Hcam Hst Hinv]. rewrite stop_eq.
  destruct (_started (self w)) eqn:Hstarted; cbn; [|exact Hw].
  destruct (_camera (self w)) as [pid|] eqn:Hpid.
  - split; cbn.
    + intros pid' H. rewrite length_alter. apply Hcam. congruence.
    + intros _ H. discriminate.
    + intros i p Hp Hne.
      destruct (decide (i = pid)) as [->|Hi].
      * rewrite list_lookup_alter, decide_True in Hp by reflexivity.
        destruct (processes w !! pid); cbn in Hp; [|discriminate].
        injection Hp as <-. cbn in Hne. congruence.
      * rewrite list_lookup_alter_ne in Hp by congruence. eapply Hinv; eassumption.
  - split; cbn.
    + intros pid' H. congruence.
    + intros _ H. discriminate.
    + exact Hinv.
Qed.

Lemma worker_step_consistent (pid : nat) (env : Env) (w : World) :
  consistent w → consistent (worker_step pid env w).
Proof.
  intros Hw. pose proof Hw as [Hcam Hst Hinv]. unfold worker_step.
  destruct (processes w !! pid) as [p|] eqn:Hp; [|exact Hw].
  destruct (is_alive p) eqn:Halive; [|exact Hw].
  set (r := loop_body env (camera (target p))
              {| me := target p; cmd_q := _cmd_q (self w) |}).
  split; cbn.
  - intros pid' H. rewrite length_insert. apply Hcam. exact H.
  - exact Hst.
  - intros i p' Hp' Hne.
    destruct (decide (i = pid)) as [->|Hi].
    + rewrite list_lookup_insert_eq in Hp' by (eapply lookup_lt_Some; eassumption).
      injection Hp' as <-. cbn in Hne |- *.
      assert (Hp_inv : recording_iff_encoder (target p)).
      { eapply Hinv; [eassumption|]. unfold is_alive in Halive.
        destruct (pstate p); congruence. }
      unfold returns in Hne.
      destruct r as [[e|[]] v'] eqn:Hr; cbn in Hne |- *; [congruence|].
      eapply loop_body_invariant; [|exact Hr]. exact Hp_inv.
    + rewrite list_lookup_insert_ne in Hp' by congruence. eapply Hinv; eassumption.
Qed.

Lemma step_consistent (ev : Event) (w : World) : consistent w → consistent (step ev w).
Proof.
  destruct ev; cbn.
  - apply start_consistent.
  - apply start_recording_consistent.
  - apply stop_recording_consistent.
  - apply stop_consistent.
  - apply worker_step_consistent.
Qed.

Lemma steps_consistent (evs : list Event) (w : World) :
  consistent w → consistent (steps evs w).
Proof.
  revert w. induction evs as [|ev evs IH]; intros w Hw; [exact Hw|].
  rewrite steps_cons. apply IH, step_consistent, Hw.
Qed.

Lemma reachable_consistent (w : World) : reachable w → consistent w.
Proof.
  intros (d & rs & cd & fp & opens & r & evs & Hinit & ->).
  apply steps_consistent.
  apply VideoRecorder__init__fresh in Hinit as [_ ->].
  apply fresh_consistent; reflexivity.
Qed.

Lemma reachable_step (ev : Event) (w : World) : reachable w → reachable (step ev w).
Proof.
  intros (d & rs & cd & fp & opens & r & evs & Hinit & ->).
  exists d, rs, cd, fp, opens, r, (evs ++ [ev]). split; [exact Hinit|].
  rewrite steps_app. reflexivity.
Qed.

(** ** The queue is first in, first out *)

Lemma worker_step_queue (pid : nat) (env : Env) (w : World) :
  _cmd_q (self (worker_step pid env w)) =
  drop (length (observes (iterate pid env) w)) (_cmd_q (self w)).
Proof.
  unfold worker_step, observes.
  destruct (processes w !! pid) as [p|]; [|reflexivity].
  destruct (is_alive p); [|reflexivity].
  cbn. rewrite loop_body_queue. cbn.
  destruct (_cmd_q (self w)); reflexivity.
Qed.

Lemma step_queue (ev : Event) (w : World) :
  _cmd_q (self w) ++ enqueues ev w = observes ev w ++ _cmd_q (self (step ev w)).
Proof.
  destruct ev as [|f| | |pid env]; cbn [step enqueues].
  - rewrite (proj1 (proj2 (proj2 (start_self w)))). apply app_nil_r.
  - rewrite start_recording_eq. unfold returns.
    destruct (negb (_started (self w))); [apply app_nil_r|].
    destruct (_recording (self w)); [apply app_nil_r|]. reflexivity.
  - rewrite stop_recording_eq. unfold returns.
    destruct (negb (_recording (self w))); [apply app_nil_r|]. reflexivity.
  - rewrite stop_eq. cbn [observes].
    destruct (negb (_started (self w))); [apply app_nil_r|].
    cbn. destruct (_camera (self w)); apply app_nil_r.
  - rewrite app_nil_r, worker_step_queue.
    unfold observes.
    destruct (processes w !! pid) as [p|]; [|reflexivity].
    destruct (is_alive p); [|reflexivity].
    destruct (_cmd_q (self w)); reflexivity.
Qed.

(** Along any run, what was on the queue followed by what was put on it is what
    the processes took followed by what is left: commands are taken in the order
    they were put, none is lost, repeated or merged. *)
Lemma fifo (evs : list Event) (w : World) :
  _cmd_q (self w) ++ enqueued evs w = observed evs w ++ _cmd_q (self (steps evs w)).
Proof.
  revert w. induction evs as [|ev evs IH]; intros w.
  - cbn. apply app_nil_r.
  - rewrite steps_cons. cbn [enqueued observed].
    rewrite app_assoc, step_queue, <- !app_assoc. f_equal. apply IH.
Qed.

(** ** A complete session *)

Example recorder1_constructed :
  VideoRecorder__init__ 0 (320, 240) "XVID" 15 true = inr recorder1.
Proof. reflexivity. Qed.

Example device_does_not_open :
  VideoRecorder__init__ 7 default_res default_codec default_fps false =
  inl (DeviceOpenError 7).
Proof. reflexivity. Qed.

(** One writer was opened, for [clip1.avi] with the recorder's codec, frame
    rate and resolution; it got the two frames that were delivered and was
    released; the process took the two commands in order and was then ended. *)
Example session_result :
  steps session (fresh recorder1) =
  {| self := {| _res := (320, 240); _codec := "XVID"; _fps := 15; _cmd_q := [];
                _actual_camera := {| cap_device := 0; cap_opened := false |};
                _recording := false; _started := false; _camera := Some 0%nat |};
     processes :=
       [{| target := {| res := (320, 240); fps := 15; codec := "XVID";
                        camera := {| cap_device := 0; cap_opened := true |};
                        fourcc := CV_FOURCC "XVID"; recording := false;
                        out := Some {| vw_filename := "clip1.avi";
                                       vw_fourcc := CV_FOURCC "XVID"; vw_fps := 15;
                                       vw_res := (320, 240); vw_opened := false;
                                       vw_frames := [[1; 2; 3]; [1; 2; 3]] |} |};
           pstate := Ended |}] |} ∧
  observed session (fresh recorder1) = [CmdStart "clip1.avi"; CmdStop].
Proof. split; reflexivity. Qed.

(** A stop command left on the queue by an earlier session reaches a process
    that never opened a writer: the process ends on the missing attribute. *)
Example stale_stop_ends_new_process :
  processes
    (steps [call_start; call_start_recording "a.avi"; iterate 0 env_good;
            call_stop_recording; call_stop; call_start; iterate 1 env_good]
       (fresh recorder1)) !! 1%nat =
  Some {| target := {| res := (320, 240); fps := 15; codec := "XVID";
                       camera := {| cap_device := 0; cap_opened := false |};
                       fourcc := CV_FOURCC "XVID"; recording := false; out := None |};
          pstate := Ended |}.
Proof. reflexivity. Qed.

(** ** Helpers on the process table and the camera *)

Lemma alive_count_snoc (ps : list Process) (p : Process) :
  alive_count (ps ++ [p]) = (alive_count ps + (if is_alive p then 1 else 0))%nat.
Proof. induction ps as [|q ps IH]; cbn; [lia|]. rewrite IH. lia. Qed.

(** No event opens the camera: a step leaves it as it is or releases it. *)
Lemma step_camera (ev : Event) (w : World) :
  _actual_camera (self (step ev w)) = _actual_camera (self w) ∨
  _actual_camera (self (step ev w)) = cap_release (_actual_camera (self w)).
Proof.
  destruct ev as [|f| | |pid env]; cbn [step].
  - left. apply (start_self w).
  - left. rewrite start_recording_eq.
    destruct (negb (_started (self w))); [reflexivity|].
    destruct (_recording (self w)); reflexivity.
  - left. rewrite stop_recording_eq.
    destruct (negb (_recording (self w))); reflexivity.
  - rewrite stop_eq. destruct (negb (_started (self w))); [left; reflexivity|].
    right. cbn. destruct (_camera (self w)); reflexivity.
  - left. unfold worker_step.
    destruct (processes w !! pid) as [p|]; [|reflexivity].
    destruct (is_alive p); reflexivity.
Qed.

Lemma steps_camera_released (evs : list Event) (w : World) :
  cap_opened (_actual_camera (self w)) = false →
  cap_opened (_actual_camera (self (steps evs w))) = false.
Proof.
  revert w. induction evs as [|ev evs IH]; intros w Hw; [exact Hw|].
  rewrite steps_cons. apply IH.
  destruct (step_camera ev w) as [-> | ->]; [exact Hw|reflexivity].
Qed.

Lemma cap_read_released (c : VideoCapture) (g : option Frame) :
  cap_opened c = false → cap_read c g = (false, None).
Proof. unfold cap_read. intros ->. reflexivity. Qed.

(** A start command whose writer opens: the whole iteration returns, recording,
    with the new writer holding at most the frame just read. *)
Lemma loop_body_start_opens (env : Env) (cam : VideoCapture) (c : _Camera)
    (f : string) (rest : Queue) :
  writer_opens env = true →
  ∃ frames,
    loop_body env cam {| me := c; cmd_q := CmdStart f :: rest |} =
    (inr (),
     {| me := {| res := res c; fps := fps c; codec := codec c;
                 camera := camera c; fourcc := fourcc c;
                 recording := true;
                 out := Some {| vw_filename := f; vw_fourcc := fourcc c;
                                vw_fps := fps c; vw_res := res c; vw_opened := true;
                                vw_frames := frames |} |};
        cmd_q := rest |}) ∧
    frames = match cap_read cam (grabbed env) with
             | (true, Some fr) => [fr]
             | _ => []
             end.
Proof.
  intros Hopen. rewrite loop_body_eq, apply_command_start. cbn.
  rewrite Hopen, capture_frame_eq. cbn.
  destruct (cap_read cam (grabbed env)) as [[] [fr|]];
    eexists; split; reflexivity.
Qed.

(** The camera object a process was given stays as it was. *)
Lemma loop_body_camera (env : Env) (cam : VideoCapture) (v : WorkerView) :
  camera (me (state_after (loop_body env cam v))) = camera (me v).
Proof.
  rewrite loop_body_eq.
  assert (H1 : camera (me (state_after (apply_command env v))) = camera (me v)).
  { destruct v as [c [|[f|] rest]].
    - reflexivity.
    - rewrite apply_command_start. cbn. destruct (writer_opens env); reflexivity.
    - rewrite apply_command_stop. destruct (out c); reflexivity. }
  destruct (apply_command env v) as [[e|[]] v1]; cbn in H1 |- *; [exact H1|].
  rewrite <- H1, capture_frame_eq.
  destruct (recording (me v1)); [|reflexivity].
  destruct (cap_read cam (grabbed env)) as [[] [f|]]; try reflexivity.
  destruct (out (me v1)); reflexivity.
Qed.

Lemma step_process_camera (ev : Event) (w : World) (pid : nat) (p p' : Process) :
  processes w !! pid = Some p →
  processes (step ev w) !! pid = Some p' →
  camera (target p') = camera (target p).
Proof.
  intros Hp Hp'. apply lookup_lt_Some in Hp as Hlt.
  destruct ev as [|f| | |i env]; cbn [step] in Hp'.
  - rewrite start_processes, lookup_app_l in Hp' by exact Hlt. congruence.
  - rewrite start_recording_eq in Hp'.
    destruct (negb (_started (self w))); [|destruct (_recording (self w))];
      cbn in Hp'; congruence.
  - rewrite stop_recording_eq in Hp'.
    destruct (negb (_recording (self w))); cbn in Hp'; congruence.
  - rewrite stop_eq in Hp'. destruct (negb (_started (self w))); cbn in Hp'; [congruence|].
    destruct (_camera (self w)) as [j|]; cbn in Hp'; [|congruence].
    destruct (decide (pid = j)) as [->|Hne].
    + rewrite list_lookup_alter, decide_True, Hp in Hp' by reflexivity.
      cbn in Hp'. injection Hp' as <-. reflexivity.
    + rewrite list_lookup_alter_ne in Hp' by congruence. congruence.
  - unfold worker_step in Hp'.
    destruct (processes w !! i) as [q|] eqn:Hq; [|congruence].
    destruct (is_alive q); [|congruence]. cbn in Hp'.
    destruct (decide (pid = i)) as [->|Hne].
    + rewrite list_lookup_insert_eq in Hp' by exact Hlt.
      injection Hp' as <-. cbn. rewrite loop_body_camera. cbn. congruence.
    + rewrite list_lookup_insert_ne in Hp' by congruence. congruence.
Qed.

Lemma step_lookup_stays (ev : Event) (w : World) (pid : nat) (p : Process) :
  processes w !! pid = Some p → is_Some (processes (step ev w) !! pid).
Proof.
  intros Hp. apply lookup_lt_Some in Hp as Hlt. apply lookup_lt_is_Some_2.
  destruct ev as [|f| | |i env]; cbn [step].
  - rewrite start_processes, length_app. lia.
  - rewrite start_recording_eq.
    destruct (negb (_started (self w))); [|destruct (_recording (self w))]; exact Hlt.
  - rewrite stop_recording_eq. destruct (negb (_recording (self w))); exact Hlt.
  - rewrite stop_eq. destruct (negb (_started (self w))); [exact Hlt|].
    cbn. destruct (_camera (self w)); cbn; rewrite ?length_alter; exact Hlt.
  - unfold worker_step. destruct (processes w !! i) as [q|]; [|exact Hlt].
    destruct (is_alive q); cbn; rewrite ?length_insert; exact Hlt.
Qed.

Lemma steps_process_camera (evs : list Event) (w : World) (pid : nat) (p p' : Process) :
  processes w !! pid = Some p →
  cap_opened (camera (target p)) = false →
  processes (steps evs w) !! pid = Some p' →
  cap_opened (camera (target p')) = false.
Proof.
  revert w p. induction evs as [|ev evs IH]; intros w p Hp Hc Hp'.
  - cbn in Hp'. congruence.
  - rewrite steps_cons in Hp'.
    destruct (step_lookup_stays ev w pid p Hp) as [q Hq].
    apply (IH (step ev w) q Hq); [|exact Hp'].
    rewrite (step_process_camera ev w pid p q Hp Hq). exact Hc.
Qed.

(** ** start *)

(** C1 does not hold of the code: [start] (lines 89-93) has no guard, while
    [start_recording], [stop_recording] and [stop] each begin with one on the
    same flags.  On the recorder [VideoRecorder(0)] after one [start()], the
    flag [_started] is true, a second [start()] returns without raising, and
    two processes are running where there was one; the recorder now refers to
    the second only. *)
Lemma start_twice_not_refused :
  _started (self world_started) = true ∧
  raised (start world_started) = None ∧
  alive_count (processes world_started) = 1%nat ∧
  alive_count (processes (state_after (start world_started))) = 2%nat ∧
  _camera (self (state_after (start world_started))) = Some 1%nat.
Proof. repeat split; reflexivity. Qed.

(** C10, as stated, fails on the code: [start] raises when the codec does
    not have four characters.  The constructor accepts [codec='MP4']; the
    first [start()] then raises the type error of the call
    [CV_FOURCC( *'MP4')], after [_started] has been set and before any process
    exists. *)
Lemma start_raises_on_three_character_codec :
  VideoRecorder__init__ 0 default_res "MP4" default_fps true = inr recorder_mp4 ∧
  raised (start (fresh recorder_mp4)) = Some (TypeError "CV_FOURCC") ∧
  _started (self (state_after (start (fresh recorder_mp4)))) = true ∧
  processes (state_after (start (fresh recorder_mp4))) = [] ∧
  _camera (self (state_after (start (fresh recorder_mp4)))) = None.
Proof. repeat split; reflexivity. Qed.

(** C10, amended: on a recorder whose codec has four characters [start]
    raises in no state, whatever the flags, the queue, the camera and the
    process table are, and it leaves the recorder's camera object untouched.
    In particular, when [stop()] has returned ([_started] false, camera
    released), the next [start()] returns, sets [_started] again and starts a
    new process at a fresh place in the table; the camera object that process
    is given is the released one, so its reads deliver nothing, and nothing
    that happens afterwards opens the recorder's camera or the process's. *)
Theorem start_returns_with_four_character_codec (w : World) :
  String.length (_codec (self w)) = 4%nat →
  raised (start w) = None ∧
  _started (self (state_after (start w))) = true ∧
  _actual_camera (self (state_after (start w))) = _actual_camera (self w) ∧
  ∀ w1, stop w = (inr (), w1) →
    _started (self w1) = false ∧
    cap_opened (_actual_camera (self w1)) = false ∧
    raised (start w1) = None ∧
    _started (self (state_after (start w1))) = true ∧
    _camera (self (state_after (start w1))) = Some (length (processes w1)) ∧
    processes (state_after (start w1)) =
      processes w1 ++
        [{| target := {| res := _res (self w); fps := _fps (self w);
                         codec := _codec (self w);
                         camera := _actual_camera (self w1);
                         fourcc := CV_FOURCC (_codec (self w));
                         recording := false; out := None |};
            pstate := Alive |}] ∧
    _actual_camera (self (state_after (start w1))) = _actual_camera (self w1) ∧
    (∀ g, cap_read (_actual_camera (self w1)) g = (false, None)) ∧
    (∀ evs, cap_opened (_actual_camera (self (steps evs (state_after (start w1))))) =
            false) ∧
    (∀ evs p, processes (steps evs (state_after (start w1))) !! length (processes w1) =
                Some p →
              cap_opened (camera (target p)) = false).
Proof.
  intros Hcodec. rewrite start_raised, decide_True by exact Hcodec.
  split; [reflexivity|]. split; [apply (start_self w)|]. split; [apply (start_self w)|].
  intros w1. rewrite stop_eq.
  destruct (negb (_started (self w))); [discriminate|]. cbn.
  destruct (_camera (self w)) as [pid|]; [|discriminate].
  intros [= Hw1].
  assert (Hself : self w1 = with_actual_camera (cap_release (_actual_camera (self w)))
                              (with_started false (self w))).
  { rewrite <- Hw1. reflexivity. }
  assert (Hc1 : String.length (_codec (self w1)) = 4%nat).
  { rewrite Hself. exact Hcodec. }
  assert (Hrel : cap_opened (_actual_camera (self w1)) = false).
  { rewrite Hself. reflexivity. }
  pose proof (start_self w1) as (Hs & _ & _ & Hcam & _).
  pose proof (start_processes w1) as Hps. rewrite decide_True in Hps by exact Hc1.
  split; [rewrite Hself; reflexivity|]. split; [exact Hrel|].
  split; [rewrite start_raised, decide_True by exact Hc1; reflexivity|].
  split; [exact Hs|].
  split; [rewrite start_eq, decide_True by exact Hc1; reflexivity|].
  split; [rewrite Hps, Hself; reflexivity|]. split; [exact Hcam|]. split; [|split].
  - intros g. apply cap_read_released, Hrel.
  - intros evs. apply steps_camera_released. rewrite Hcam. exact Hrel.
  - intros evs p Hp. eapply steps_process_camera; [| |exact Hp].
    + rewrite Hps, lookup_app_r, Nat.sub_diag by lia. reflexivity.
    + exact Hrel.
Qed.

Lemma start_returns_with_four_character_codec_witness :
  String.length (_codec (self world_started)) = 4%nat ∧
  returns (stop world_started) = true ∧
  raised (start (state_after (stop world_started))) = None ∧
  cap_opened (_actual_camera (self (state_after (start (state_after (stop world_started)))))) = false.
Proof.
  pose proof (start_returns_with_four_character_codec world_started eq_refl)
    as (_ & _ & _ & H).
  specialize (H (state_after (stop world_started)) eq_refl)
    as (_ & _ & H1 & _ & _ & _ & _ & _ & H2 & _).
  split; [reflexivity|]. split; [reflexivity|]. split; [exact H1|]. exact (H2 []).
Defined.

(** ** start_recording and stop_recording *)

Ltac invalid_state := unfold InvalidStateError; tauto.

(** C4: [start_recording(output_file)] fails with an invalid-state error
    exactly when the recorder is not started or is already recording, and it
    fails in no other way.  When it does not fail it sets [_recording] and puts
    [('start', output_file)] at the back of the queue, changing nothing else.
    It does not wait for any process: the process table plays no part in what
    it does and is left as it is. *)
Theorem start_recording_spec (output_file : string) (w : World) :
  ((∃ e, raised (start_recording output_file w) = Some e ∧ InvalidStateError e) ↔
   (_started (self w) = false ∨ _recording (self w) = true)) ∧
  (raised (start_recording output_file w) = None ↔
   (_started (self w) = true ∧ _recording (self w) = false)) ∧
  (raised (start_recording output_file w) = None →
   state_after (start_recording output_file w) =
   {| self := {| _res := _res (self w); _codec := _codec (self w); _fps := _fps (self w);
                 _cmd_q := _cmd_q (self w) ++ [CmdStart output_file];
                 _actual_camera := _actual_camera (self w);
                 _recording := true; _started := _started (self w);
                 _camera := _camera (self w) |};
      processes := processes w |}) ∧
  (∀ ps,
     start_recording output_file {| self := self w; processes := ps |} =
     (outcome (start_recording output_file w),
      {| self := self (state_after (start_recording output_file w));
         processes := ps |})).
Proof.
  split; [|split; [|split]].
  - rewrite start_recording_eq.
    destruct (_started (self w)), (_recording (self w)); cbn; split.
    all: try (intros _; eexists; split; [reflexivity|invalid_state]).
    all: try (intros (e & He & _); discriminate).
    all: try (intros _; right; reflexivity); try (intros _; left; reflexivity).
    intros [|]; discriminate.
  - rewrite start_recording_eq.
    destruct (_started (self w)), (_recording (self w)); cbn; split.
    all: try discriminate; try (intros [? ?]; discriminate).
    all: intros _; try split; reflexivity.
  - rewrite start_recording_eq.
    destruct (_started (self w)) eqn:Hs, (_recording (self w)) eqn:Hr; cbn.
    all: try discriminate.
    intros _. unfold on_self, with_cmd_q, with_recording. cbn. rewrite Hs. reflexivity.
  - intros ps. rewrite !start_recording_eq. cbn [self processes].
    destruct (_started (self w)), (_recording (self w)); reflexivity.
Qed.

(** C5: [stop_recording()] fails with an invalid-state error exactly when
    [_recording] is false, and it fails in no other way.  When it does not fail
    it puts [('stop',)] at the back of the queue and clears [_recording],
    changing nothing else. *)
Theorem stop_recording_spec (w : World) :
  ((∃ e, raised (stop_recording w) = Some e ∧ InvalidStateError e) ↔
   _recording (self w) = false) ∧
  (raised (stop_recording w) = None ↔ _recording (self w) = true) ∧
  (raised (stop_recording w) = None →
   state_after (stop_recording w) =
   {| self := {| _res := _res (self w); _codec := _codec (self w); _fps := _fps (self w);
                 _cmd_q := _cmd_q (self w) ++ [CmdStop];
                 _actual_camera := _actual_camera (self w);
                 _recording := false; _started := _started (self w);
                 _camera := _camera (self w) |};
      processes := processes w |}).
Proof.
  rewrite !stop_recording_eq.
  destruct (_recording (self w)) eqn:Hr; cbn.
  all: split; [split|split; [split|]].
  all: try discriminate; try reflexivity.
  - intros (e & He & _); discriminate.
  - intros _. eexists; split; [reflexivity|invalid_state].
Qed.

(** C9: a call of [start_recording], [stop_recording] or [stop] that fails
    with an invalid-state error leaves the whole world (the [_started] and
    [_recording] flags, the queue, and everything else) exactly as it was. *)
Theorem invalid_state_changes_nothing (w : World) (output_file : string) (e : exn) :
  InvalidStateError e →
  (raised (start_recording output_file w) = Some e →
   state_after (start_recording output_file w) = w) ∧
  (raised (stop_recording w) = Some e → state_after (stop_recording w) = w) ∧
  (raised (stop w) = Some e → state_after (stop w) = w).
Proof.
  intros He. split; [|split].
  - rewrite start_recording_eq.
    destruct (negb (_started (self w))); [reflexivity|].
    destruct (_recording (self w)); [reflexivity|discriminate].
  - rewrite stop_recording_eq.
    destruct (negb (_recording (self w))); [reflexivity|discriminate].
  - rewrite stop_eq.
    destruct (negb (_started (self w))); [reflexivity|]. cbn.
    destruct (_camera (self w)); [discriminate|].
    intros [= <-]. unfold InvalidStateError in He.
    destruct He as [|[|[|]]]; discriminate.
Qed.

Lemma invalid_state_changes_nothing_witness :
  InvalidStateError (Exception msg_stop_before_start []) ∧
  raised (stop (fresh recorder0)) = Some (Exception msg_stop_before_start []) ∧
  state_after (stop (fresh recorder0)) = fresh recorder0.
Proof.
  assert (He : InvalidStateError (Exception msg_stop_before_start [])).
  { invalid_state. }
  split; [exact He|]. split; [reflexivity|].
  exact (proj2 (proj2 (invalid_state_changes_nothing (fresh recorder0) "a.avi" _ He))
           eq_refl).
Defined.

(** In a reachable world of a recorder whose codec has four characters the
    three guarded methods fail in no other way than with an invalid-state
    error. *)
Lemma reachable_failure_is_invalid_state (w : World) (output_file : string) (e : exn) :
  reachable w →
  String.length (_codec (self w)) = 4%nat →
  raised (start_recording output_file w) = Some e ∨
  raised (stop_recording w) = Some e ∨
  raised (stop w) = Some e →
  InvalidStateError e.
Proof.
  intros Hw Hcodec. apply reachable_consistent in Hw as [_ Hst _].
  rewrite start_recording_eq, stop_recording_eq, stop_eq.
  intros [H|[H|H]].
  - destruct (negb (_started (self w))); [injection H as <-; invalid_state|].
    destruct (_recording (self w)); [injection H as <-; invalid_state|discriminate].
  - destruct (negb (_recording (self w))); [injection H as <-; invalid_state|discriminate].
  - destruct (_started (self w)) eqn:Hs; cbn in H; [|injection H as <-; invalid_state].
    destruct (Hst Hcodec eq_refl) as [pid Hpid]. rewrite Hpid in H. discriminate.
Qed.

(** ** stop *)

Lemma step_codec (ev : Event) (w : World) : _codec (self (step ev w)) = _codec (self w).
Proof.
  destruct ev as [|f| | |i env]; cbn [step].
  - apply (start_self w).
  - rewrite start_recording_eq.
    destruct (negb (_started (self w))); [|destruct (_recording (self w))]; reflexivity.
  - rewrite stop_recording_eq. destruct (negb (_recording (self w))); reflexivity.
  - rewrite stop_eq. destruct (negb (_started (self w))); [reflexivity|].
    cbn. destruct (_camera (self w)); reflexivity.
  - unfold worker_step. destruct (processes w !! i) as [q|]; [|reflexivity].
    destruct (is_alive q); reflexivity.
Qed.






(** ** The loop: commands *)

(** C7: when an iteration takes [('start', filename)] from the queue and the
    writer does not open, the iteration raises the encoder-open error, which
    carries that file name and the codec, frame rate and resolution of the
    process; when the writer opens, the iteration returns with [recording]
    set, holding an open writer built from the same four values.  A process
    started by a [start()] that returns carries the recorder's own codec,
    frame rate and resolution. *)
Theorem start_command_spec (env : Env) (camera : VideoCapture) (c : _Camera)
    (filename : string) (rest : Queue) :
  (if writer_opens env then
     raised (apply_command env {| me := c; cmd_q := CmdStart filename :: rest |}) = None ∧
     raised (loop_body env camera {| me := c; cmd_q := CmdStart filename :: rest |}) = None ∧
     recording (me (state_after
       (apply_command env {| me := c; cmd_q := CmdStart filename :: rest |}))) = true ∧
     out (me (state_after
       (apply_command env {| me := c; cmd_q := CmdStart filename :: rest |}))) =
       Some (VideoWriter_new filename (fourcc c) (fps c) (res c) true) ∧
     recording (me (state_after
       (loop_body env camera {| me := c; cmd_q := CmdStart filename :: rest |}))) = true ∧
     encoder_open (me (state_after
       (loop_body env camera {| me := c; cmd_q := CmdStart filename :: rest |}))) = true
   else
     raised (apply_command env {| me := c; cmd_q := CmdStart filename :: rest |}) =
       Some (EncoderOpenError filename (codec c) (fps c) (res c)) ∧
     raised (loop_body env camera {| me := c; cmd_q := CmdStart filename :: rest |}) =
       Some (EncoderOpenError filename (codec c) (fps c) (res c)) ∧
     recording (me (state_after
       (loop_body env camera {| me := c; cmd_q := CmdStart filename :: rest |}))) =
       recording c) ∧
  (∀ w, String.length (_codec (self w)) = 4%nat →
        processes (state_after (start w)) !! length (processes w) =
        Some {| target := {| res := _res (self w); fps := _fps (self w);
                             codec := _codec (self w);
                             camera := _actual_camera (self w);
                             fourcc := CV_FOURCC (_codec (self w));
                             recording := false; out := None |};
                pstate := Alive |}).
Proof.
  split.
  - destruct (writer_opens env) eqn:Hopen.
    + destruct (loop_body_start_opens env camera c filename rest Hopen)
        as (frames & -> & _).
      rewrite apply_command_start. cbn. rewrite Hopen. cbn.
      repeat split; reflexivity.
    + rewrite loop_body_eq, apply_command_start. cbn. rewrite Hopen. cbn.
      repeat split; reflexivity.
  - intros w Hcodec.
    rewrite start_processes, decide_True, lookup_app_r, Nat.sub_diag by (exact Hcodec || lia).
    reflexivity.
Qed.

(** ** The loop: frames *)

(** C8: in an iteration whose command phase has returned with [recording]
    true, a camera read that delivers no frame makes the frame phase a no-op:
    the iteration returns in the state the command phase left, so nothing is
    written to the writer and [recording] stays true, and the loop goes on with
    the next iteration from that state. *)
Theorem missed_frame_skipped (env : Env) (camera : VideoCapture) (v v1 : WorkerView) :
  apply_command env v = (inr (), v1) →
  recording (me v1) = true →
  (cap_read camera (grabbed env)).1 = false →
  capture_frame env camera v1 = (inr (), v1) ∧
  loop_body env camera v = (inr (), v1) ∧
  frames_written (me (state_after (loop_body env camera v))) = frames_written (me v1) ∧
  recording (me (state_after (loop_body env camera v))) = true ∧
  ∀ envs, run (env :: envs) camera v = run envs camera v1.
Proof.
  intros Hcmd Hrec Hread.
  assert (Hcap : capture_frame env camera v1 = (inr (), v1)).
  { rewrite capture_frame_eq, Hrec.
    destruct (cap_read camera (grabbed env)) as [[] [f|]]; cbn in Hread;
      try discriminate; reflexivity. }
  assert (Hloop : loop_body env camera v = (inr (), v1)).
  { rewrite loop_body_eq, Hcmd. exact Hcap. }
  split; [exact Hcap|]. split; [exact Hloop|].
  split; [rewrite Hloop; reflexivity|]. split; [rewrite Hloop; exact Hrec|].
  intros envs. rewrite run_cons, Hloop. reflexivity.
Qed.

Lemma missed_frame_skipped_witness :
  recording camera_recording = true ∧
  (cap_read {| cap_device := 0; cap_opened := true |} (grabbed env_bad)).1 = false ∧
  loop_body env_bad {| cap_device := 0; cap_opened := true |}
    {| me := camera_recording; cmd_q := [] |} =
  (inr (), {| me := camera_recording; cmd_q := [] |}).
Proof.
  split; [reflexivity|]. split; [reflexivity|].
  exact (proj1 (proj2 (missed_frame_skipped env_bad {| cap_device := 0; cap_opened := true |}
                         {| me := camera_recording; cmd_q := [] |}
                         {| me := camera_recording; cmd_q := [] |}
                         eq_refl eq_refl eq_refl))).
Defined.

(** ** The loop invariant, as a whole *)

(** C2, as stated, fails on the code in two ways.  The invariant does not
    hold at every point of the loop: in the stop branch the writer is released
    (line 44) before [recording] is cleared (line 45), and in the start branch
    the writer is opened (line 48) before [recording] is set (line 52), so
    between the two statements the flag and the writer disagree.  And the
    handle is not present exactly when recording: [out] is never reset, so
    after a stop command the released writer is still held while [recording]
    is false. *)
Lemma invariant_broken_inside_branches :
  recording_iff_encoder camera_recording ∧
  apply_command env_good {| me := camera_recording; cmd_q := [CmdStop] |} =
    (out_release ;; modify (set_recording false))
      {| me := camera_recording; cmd_q := [] |} ∧
  recording (me (state_after (out_release {| me := camera_recording; cmd_q := [] |}))) =
    true ∧
  encoder_open (me (state_after (out_release {| me := camera_recording; cmd_q := [] |}))) =
    false ∧
  recording_iff_encoder camera_idle ∧
  recording (me (set_out (Some (VideoWriter_new "b.avi" (fourcc camera_idle)
                                  (fps camera_idle) (res camera_idle) true))
                   {| me := camera_idle; cmd_q := [] |})) = false ∧
  encoder_open (me (set_out (Some (VideoWriter_new "b.avi" (fourcc camera_idle)
                                     (fps camera_idle) (res camera_idle) true))
                      {| me := camera_idle; cmd_q := [] |})) = true ∧
  recording (me (state_after
    (apply_command env_good {| me := camera_recording; cmd_q := [CmdStop] |}))) = false ∧
  is_Some (out (me (state_after
    (apply_command env_good {| me := camera_recording; cmd_q := [CmdStop] |})))).
Proof. repeat split; try reflexivity. eexists; reflexivity. Qed.

(** C2, amended: at the head of the loop and between the command phase and
    the frame phase of an iteration, a process records exactly when the video
    writer it holds is open (a released writer stays held after a stop).  This
    holds when the process is built; it holds of every process that has not
    ended, in every world reached from a constructed recorder, whatever the
    interleaving of calls and iterations; and from any state in which it holds
    it holds again after a start command, after a stop command, after the frame
    phase, after a whole iteration and after any number of iterations, whenever
    these return.  An iteration fails to return in two cases only, which end
    the process: a stop command when no writer was ever assigned, and a start
    command whose writer does not open. *)
Theorem recording_iff_encoder_invariant :
  (∀ cam rs cd fp c,
     _Camera__init__ cam rs cd fp = inr c → recording_iff_encoder c) ∧
  (∀ w pid p, reachable w → processes w !! pid = Some p → pstate p ≠ Ended →
     recording_iff_encoder (target p)) ∧
  (∀ env camera v, recording_iff_encoder (me v) →
     (∀ f rest v', cmd_q v = CmdStart f :: rest →
        apply_command env v = (inr (), v') → recording_iff_encoder (me v')) ∧
     (∀ rest v', cmd_q v = CmdStop :: rest →
        apply_command env v = (inr (), v') → recording_iff_encoder (me v')) ∧
     (∀ v', capture_frame env camera v = (inr (), v') → recording_iff_encoder (me v')) ∧
     (∀ v', loop_body env camera v = (inr (), v') → recording_iff_encoder (me v')) ∧
     (∀ envs v', run envs camera v = (inr (), v') → recording_iff_encoder (me v')) ∧
     raised (loop_body env camera v) =
       match cmd_q v with
       | [] => None
       | CmdStop :: _ =>
           match out (me v) with
           | None => Some (AttributeError "release")
           | Some _ => None
           end
       | CmdStart f :: _ =>
           if writer_opens env then None
           else Some (EncoderOpenError f (codec (me v)) (fps (me v)) (res (me v)))
       end).
Proof.
  split; [exact _Camera__init__invariant|]. split.
  - intros w pid p Hw. apply (loop_invariant w (reachable_consistent w Hw)).
  - intros env camera v Hinv. repeat split.
    + intros f rest v' _. apply apply_command_invariant, Hinv.
    + intros rest v' _. apply apply_command_invariant, Hinv.
    + intros v'. apply capture_frame_invariant, Hinv.
    + intros v'. apply loop_body_invariant, Hinv.
    + intros envs v'. apply run_invariant, Hinv.
    + apply loop_body_raised, Hinv.
Qed.

Lemma recording_iff_encoder_invariant_witness :
  recording_iff_encoder camera_recording ∧
  recording_iff_encoder
    (me (state_after (loop_body env_good {| cap_device := 0; cap_opened := true |}
                        {| me := camera_recording; cmd_q := [CmdStop] |}))) ∧
  recording
    (me (state_after (loop_body env_good {| cap_device := 0; cap_opened := true |}
                        {| me := camera_recording; cmd_q := [CmdStop] |}))) = false.
Proof.
  assert (H0 : recording_iff_encoder camera_recording) by reflexivity.
  pose proof (proj2 (proj2 recording_iff_encoder_invariant) env_good
                {| cap_device := 0; cap_opened := true |}
                {| me := camera_recording; cmd_q := [CmdStop] |} H0)
    as (_ & _ & _ & H & _).
  split; [exact H0|]. split; [|reflexivity].
  exact (H _ eq_refl).
Defined.

(** After a stop command the attribute [out] still refers to the writer, now
    released: it is not reset to [None]. *)
Lemma out_kept_after_stop (env : Env) (c : _Camera) (w : VideoWriter) (rest : Queue) :
  out c = Some w →
  out (me (state_after (apply_command env {| me := c; cmd_q := CmdStop :: rest |}))) =
  Some (vw_release w).
Proof. intros H. rewrite apply_command_stop, H. reflexivity. Qed.

(** ** First in, first out *)

(** C3, as stated, fails on the code: a started recorder may already be
    recording.  On [VideoRecorder(0)] after [start()] and
    [start_recording("a.avi")], the call [start_recording("out.avi")] raises,
    so the two calls put only a stop command on the queue, and no start
    command for [out.avi] ever reaches a process.  And on the recorder that is
    started but not recording, a process whose writer does not open takes the
    start command, ends on the exception, and never takes the stop command,
    which stays on the queue. *)
Lemma start_recording_refused_when_recording :
  (_started (self world_recording) = true ∧
   raised (start_recording "out.avi" world_recording) =
     Some (Exception msg_already_recording []) ∧
   enqueued [call_start_recording "out.avi"; call_stop_recording] world_recording =
     [CmdStop] ∧
   _cmd_q (self (steps [call_start_recording "out.avi"; call_stop_recording]
                   world_recording)) =
     [CmdStart "a.avi"; CmdStop]) ∧
  (_started (self world_started) = true ∧
   observed [iterate 0 env_bad; iterate 0 env_good; iterate 0 env_good]
     (steps [call_start_recording "out.avi"; call_stop_recording] world_started) =
     [CmdStart "out.avi"] ∧
   _cmd_q (self (steps [iterate 0 env_bad; iterate 0 env_good; iterate 0 env_good]
                   (steps [call_start_recording "out.avi"; call_stop_recording]
                      world_started))) =
     [CmdStop]).
Proof. repeat split; reflexivity. Qed.

(** C3, amended: on a started recorder that is not already recording,
    [start_recording("out.avi")] and then [stop_recording()] both return and
    put exactly one start command for [out.avi] and then exactly one stop
    command at the back of the queue.  An iteration of a process takes exactly
    the front command off a queue that is not empty, and nothing off an empty
    one; so along any later run what the processes have taken, followed by what
    is left on the queue, is what was on the queue, then that start, then that
    stop, then whatever was put later: no reordering, no merging.  When the
    queue was empty and a running process opens its writer, its next two
    iterations take the start and then the stop, and leave the queue empty. *)
Theorem start_then_stop_recording_fifo (w : World) :
  _started (self w) = true →
  _recording (self w) = false →
  raised (start_recording "out.avi" w) = None ∧
  raised (stop_recording (state_after (start_recording "out.avi" w))) = None ∧
  enqueued [call_start_recording "out.avi"; call_stop_recording] w =
    [CmdStart "out.avi"; CmdStop] ∧
  _cmd_q (self (steps [call_start_recording "out.avi"; call_stop_recording] w)) =
    _cmd_q (self w) ++ [CmdStart "out.avi"; CmdStop] ∧
  (∀ env camera v,
     cmd_q (state_after (loop_body env camera v)) = drop 1 (cmd_q v)) ∧
  (∀ pid env w',
     observes (iterate pid env) w' ++ _cmd_q (self (worker_step pid env w')) =
     _cmd_q (self w')) ∧
  (∀ evs,
     observed evs (steps [call_start_recording "out.avi"; call_stop_recording] w) ++
     _cmd_q (self (steps evs
                     (steps [call_start_recording "out.avi"; call_stop_recording] w))) =
     _cmd_q (self w) ++ [CmdStart "out.avi"; CmdStop] ++
     enqueued evs (steps [call_start_recording "out.avi"; call_stop_recording] w)) ∧
  (∀ pid p env1 env2,
     _cmd_q (self w) = [] → processes w !! pid = Some p → is_alive p = true →
     writer_opens env1 = true →
     observed [iterate pid env1; iterate pid env2]
       (steps [call_start_recording "out.avi"; call_stop_recording] w) =
       [CmdStart "out.avi"; CmdStop] ∧
     _cmd_q (self (steps [iterate pid env1; iterate pid env2]
                     (steps [call_start_recording "out.avi"; call_stop_recording] w))) =
       []).
Proof.
  intros Hs Hr.
  set (calls := [call_start_recording "out.avi"; call_stop_recording]).
  assert (H1 : start_recording "out.avi" w =
               (inr (), on_self (λ r, with_cmd_q (_cmd_q r ++ [CmdStart "out.avi"])
                                        (with_recording true r)) w)).
  { rewrite start_recording_eq, Hs, Hr. reflexivity. }
  assert (Hq : _cmd_q (self (steps calls w)) =
               _cmd_q (self w) ++ [CmdStart "out.avi"; CmdStop]).
  { unfold calls, steps. cbn. rewrite H1. cbn. rewrite stop_recording_eq. cbn.
    rewrite <- app_assoc. reflexivity. }
  assert (Henq : enqueued calls w = [CmdStart "out.avi"; CmdStop]).
  { unfold calls. cbn. rewrite H1. cbn. rewrite stop_recording_eq. reflexivity. }
  split; [rewrite H1; reflexivity|].
  split; [rewrite H1; cbn; rewrite stop_recording_eq; reflexivity|].
  split; [exact Henq|]. split; [exact Hq|].
  split; [exact loop_body_queue|].
  split; [intros pid env w'; symmetry;
          rewrite <- (app_nil_r (_cmd_q (self w'))) at 1;
          exact (step_queue (iterate pid env) w')|].
  split.
  - intros evs. rewrite <- fifo, Hq, <- app_assoc. reflexivity.
  - intros pid p env1 env2 Hempty Hp Ha Hopen.
    assert (Hp2 : processes (steps calls w) !! pid = Some p).
    { unfold calls, steps. cbn. rewrite H1. cbn. rewrite stop_recording_eq. exact Hp. }
    rewrite Hempty in Hq. change ([] ++ ?x) with x in Hq.
    clear Henq H1. remember (steps calls w) as w2 eqn:Hw2. clear Hw2.
    destruct (loop_body_start_opens env1 (camera (target p)) (target p)
                "out.avi" [CmdStop] Hopen) as (frames & Hloop & _).
    assert (Hstep : ∃ p', processes (worker_step pid env1 w2) !! pid = Some p' ∧
                          is_alive p' = true ∧
                          _cmd_q (self (worker_step pid env1 w2)) = [CmdStop]).
    { unfold worker_step. rewrite Hp2, Ha, Hq, Hloop. cbn.
      eexists. split.
      - apply list_lookup_insert_eq. eapply lookup_lt_Some, Hp2.
      - split; reflexivity. }
    destruct Hstep as (p' & Hp' & Ha' & Hq').
    split.
    + cbn. rewrite Hp2, Ha, Hq, Hp', Ha', Hq'. reflexivity.
    + rewrite steps_cons. change (steps [iterate pid env2] ?x) with (worker_step pid env2 x).
      rewrite worker_step_queue. cbn [step]. rewrite Hq'.
      unfold observes. rewrite Hp', Ha', Hq'. reflexivity.
Qed.

Lemma start_then_stop_recording_fifo_witness :
  _started (self world_started) = true ∧
  _recording (self world_started) = false ∧
  observed [iterate 0 env_good; iterate 0 env_bad]
    (steps [call_start_recording "out.avi"; call_stop_recording] world_started) =
    [CmdStart "out.avi"; CmdStop].
Proof.
  pose proof (start_then_stop_recording_fifo world_started eq_refl eq_refl)
    as (_ & _ & _ & _ & _ & _ & _ & H).
  split; [reflexivity|]. split; [reflexivity|].
  exact (proj1 (H 0%nat _ env_good env_bad eq_refl eq_refl eq_refl eq_refl)).
Defined.

(** ** The configuration is fixed at construction *)

Ltac split5 := split; [|split; [|split; [|split]]].

Lemma apply_command_configured (rs : Z * Z) (cd : string) (fp : Z) (env : Env)
    (v : WorkerView) :
  configured rs cd fp (me v) →
  configured rs cd fp (me (state_after (apply_command env v))).
Proof.
  destruct v as [c [|[f|] rest]]; intros Hc.
  - exact Hc.
  - rewrite apply_command_start. destruct Hc as (Hr & Hf & Hcd & Hfc & Hvw). cbn.
    destruct (writer_opens env); cbn; split5; try assumption.
    all: intros vw [= <-]; cbn; repeat split; assumption.
  - rewrite apply_command_stop. destruct Hc as (Hr & Hf & Hcd & Hfc & Hvw). cbn in *.
    destruct (out c) as [w|] eqn:Hout; cbn; split5; try assumption.
    + intros vw [= <-]. cbn. apply Hvw. reflexivity.
    + intros vw. rewrite Hout. discriminate.
Qed.

Lemma capture_frame_configured (rs : Z * Z) (cd : string) (fp : Z) (env : Env)
    (camera : VideoCapture) (v : WorkerView) :
  configured rs cd fp (me v) →
  configured rs cd fp (me (state_after (capture_frame env camera v))).
Proof.
  intros Hc. rewrite capture_frame_eq.
  destruct (recording (me v)); [|exact Hc].
  destruct (cap_read camera (grabbed env)) as [[] [f|]]; try exact Hc.
  destruct (out (me v)) as [w|] eqn:Hout; [|exact Hc].
  destruct Hc as (Hr & Hf & Hcd & Hfc & Hvw). cbn.
  split5; try assumption.
  intros vw [= <-]. specialize (Hvw w Hout). unfold vw_write.
  destruct (vw_opened w); cbn; exact Hvw.
Qed.

Lemma loop_body_configured (rs : Z * Z) (cd : string) (fp : Z) (env : Env)
    (camera : VideoCapture) (v : WorkerView) :
  configured rs cd fp (me v) →
  configured rs cd fp (me (state_after (loop_body env camera v))).
Proof.
  intros Hc. rewrite loop_body_eq.
  pose proof (apply_command_configured rs cd fp env v Hc) as H1.
  destruct (apply_command env v) as [[e|[]] v1]; cbn in H1 |- *; [exact H1|].
  apply capture_frame_configured, H1.
Qed.

Lemma step_configured (d : Z) (rs : Z * Z) (cd : string) (fp : Z) (ev : Event) (w : World) :
  world_configured d rs cd fp w → world_configured d rs cd fp (step ev w).
Proof.
  intros Hw. pose proof Hw as (Hr & Hcd & Hf & Hd & Hp).
  destruct ev as [|f| | |pid env]; cbn [step].
  - destruct (start_self w) as (_ & _ & _ & Hcam' & Hr' & Hcd' & Hf').
    split5; try congruence.
    rewrite start_processes. intros pid p Hl.
    destruct (decide (String.length (_codec (self w)) = 4%nat)).
    + apply snoc_lookup in Hl as [Hl|[_ ->]]; [eapply Hp, Hl|].
      cbn. rewrite Hr, Hcd, Hf. split5; try reflexivity. discriminate.
    + rewrite app_nil_r in Hl. eapply Hp, Hl.
  - rewrite start_recording_eq.
    destruct (negb (_started (self w))); [exact Hw|].
    destruct (_recording (self w)); [exact Hw|]. split5; assumption.
  - rewrite stop_recording_eq.
    destruct (negb (_recording (self w))); [exact Hw|]. split5; assumption.
  - rewrite stop_eq. destruct (negb (_started (self w))); [exact Hw|]. cbn.
    destruct (_camera (self w)) as [pid|]; split5; try assumption.
    cbn. intros i p Hl.
    destruct (decide (i = pid)) as [->|Hi].
    + rewrite list_lookup_alter, decide_True in Hl by reflexivity.
      destruct (processes w !! pid) as [p0|] eqn:Hp0; cbn in Hl; [|discriminate].
      injection Hl as <-. cbn. eapply Hp, Hp0.
    + rewrite list_lookup_alter_ne in Hl by congruence. eapply Hp, Hl.
  - unfold worker_step.
    destruct (processes w !! pid) as [p|] eqn:Hl; [|exact Hw].
    destruct (is_alive p); [|exact Hw].
    split5; try assumption. cbn. intros i p' Hl'.
    destruct (decide (i = pid)) as [->|Hi].
    + rewrite list_lookup_insert_eq in Hl' by (eapply lookup_lt_Some, Hl).
      injection Hl' as <-. cbn.
      apply (loop_body_configured rs cd fp env (camera (target p))
               {| me := target p; cmd_q := _cmd_q (self w) |}).
      eapply Hp, Hl.
    + rewrite list_lookup_insert_ne in Hl' by congruence. eapply Hp, Hl'.
Qed.

Lemma steps_configured (d : Z) (rs : Z * Z) (cd : string) (fp : Z) (evs : list Event)
    (w : World) :
  world_configured d rs cd fp w → world_configured d rs cd fp (steps evs w).
Proof.
  revert w. induction evs as [|ev evs IH]; intros w Hw; [exact Hw|].
  rewrite steps_cons. apply IH, step_configured, Hw.
Qed.

(** X1: the resolution, codec and frame rate given to the constructor, and the
    device, never change: in every world reached from the constructed recorder
    the recorder still holds them, every process it has created carries them,
    and every video writer a process holds was built with them. *)
Theorem configuration_fixed (device_id : Z) (rs : Z * Z) (cd : string) (fp : Z)
    (opens : bool) (r : VideoRecorder) (evs : list Event) :
  VideoRecorder__init__ device_id rs cd fp opens = inr r →
  _res (self (steps evs (fresh r))) = rs ∧
  _codec (self (steps evs (fresh r))) = cd ∧
  _fps (self (steps evs (fresh r))) = fp ∧
  cap_device (_actual_camera (self (steps evs (fresh r)))) = device_id ∧
  ∀ pid p, processes (steps evs (fresh r)) !! pid = Some p →
    res (target p) = rs ∧ fps (target p) = fp ∧ codec (target p) = cd ∧
    fourcc (target p) = CV_FOURCC cd ∧
    ∀ vw, out (target p) = Some vw →
      vw_fourcc vw = CV_FOURCC cd ∧ vw_fps vw = fp ∧ vw_res vw = rs.
Proof.
  intros Hinit. apply VideoRecorder__init__fresh in Hinit as [_ ->].
  apply (steps_configured device_id rs cd fp evs).
  split5; try reflexivity. intros pid p H. discriminate.
Qed.

Lemma configuration_fixed_witness :
  VideoRecorder__init__ 0 (320, 240) "XVID" 15 true = inr recorder1 ∧
  _res (self (steps session (fresh recorder1))) = (320, 240) ∧
  _codec (self (steps session (fresh recorder1))) = "XVID".
Proof.
  pose proof (configuration_fixed 0 (320, 240) "XVID" 15 true recorder1 session eq_refl)
    as (H1 & H2 & _).
  split; [reflexivity|]. split; [exact H1|exact H2].
Defined.

(** ** The history of the queue *)

(** X2: in any run from any world, with any number of processes and any
    interleaving, the commands the processes have taken off the queue are an
    initial segment of what was on the queue followed by what the methods put
    on it, and what is left on the queue is the rest: no command is lost,
    taken twice, merged or taken out of order, and the queue grows by one per
    successful recording call and shrinks by one per command taken. *)
Theorem commands_taken_in_order (evs : list Event) (w : World) :
  observed evs w `prefix_of` (_cmd_q (self w) ++ enqueued evs w) ∧
  _cmd_q (self (steps evs w)) =
    drop (length (observed evs w)) (_cmd_q (self w) ++ enqueued evs w) ∧
  (length (_cmd_q (self (steps evs w))) + length (observed evs w) =
   length (_cmd_q (self w)) + length (enqueued evs w))%nat.
Proof.
  pose proof (fifo evs w) as H. split; [|split].
  - exists (_cmd_q (self (steps evs w))). exact H.
  - rewrite H, drop_app_length. reflexivity.
  - apply (f_equal length) in H. rewrite !length_app in H. lia.
Qed.

Lemma alternates_app (rec : bool) (l1 l2 : list Command) :
  alternates rec (l1 ++ l2) =
  match alternates rec l1 with
  | Some rec' => alternates rec' l2
  | None => None
  end.
Proof.
  revert rec. induction l1 as [|[f|] l1 IH]; intros rec; cbn.
  - reflexivity.
  - destruct rec; [reflexivity|apply IH].
  - destruct rec; [apply IH|reflexivity].
Qed.

Lemma step_alternates (ev : Event) (w : World) :
  alternates (_recording (self w)) (enqueues ev w) = Some (_recording (self (step ev w))).
Proof.
  destruct ev as [|f| | |pid env]; cbn [step enqueues].
  - cbn. rewrite (proj1 (proj2 (start_self w))). reflexivity.
  - rewrite start_recording_eq. unfold returns.
    destruct (_started (self w)); cbn; [|reflexivity].
    destruct (_recording (self w)) eqn:Hr; cbn; rewrite ?Hr; reflexivity.
  - rewrite stop_recording_eq. unfold returns.
    destruct (_recording (self w)) eqn:Hr; cbn; rewrite ?Hr; reflexivity.
  - rewrite stop_eq. destruct (negb (_started (self w))); [reflexivity|].
    cbn. destruct (_camera (self w)); reflexivity.
  - unfold worker_step. destruct (processes w !! pid) as [p|]; [|reflexivity].
    destruct (is_alive p); reflexivity.
Qed.

(** X3: whatever the caller does, the commands the recorder puts on the queue
    alternate: starting from the recorder's [_recording] flag, a start command
    is only ever put when the flag is false and a stop command only when it is
    true, and the flag at the end is the one the last command left.  In
    particular, from a recorder that is not recording, the history is start,
    stop, start, stop, ... with no two starts and no two stops in a row. *)
Theorem enqueued_commands_alternate (evs : list Event) (w : World) :
  alternates (_recording (self w)) (enqueued evs w) =
  Some (_recording (self (steps evs w))).
Proof.
  revert w. induction evs as [|ev evs IH]; intros w; [reflexivity|].
  rewrite steps_cons. cbn [enqueued].
  rewrite alternates_app, step_alternates. apply IH.
Qed.

(** ** One session *)

Lemma capture_frame_recording (env : Env) (camera : VideoCapture) (v : WorkerView) :
  recording (me (state_after (capture_frame env camera v))) = recording (me v).
Proof.
  rewrite capture_frame_eq.
  destruct (recording (me v)) eqn:Hr; [|exact Hr].
  destruct (cap_read camera (grabbed env)) as [[] [f|]]; try exact Hr.
  destruct (out (me v)); exact Hr.
Qed.

Lemma iterate_in_session (pid : nat) (env : Env) (w : World) :
  writer_opens env = true → in_session w → in_session (worker_step pid env w).
Proof.
  intros Hopen Hw. pose proof Hw as (c & Hps & Hinv & Halt & Hst).
  unfold worker_step. rewrite Hps.
  destruct pid as [|pid]; [|exact Hw]. cbn [lookup list_lookup is_alive pstate target].
  set (v := {| me := c; cmd_q := _cmd_q (self w) |}).
  assert (Hret : ∃ v', loop_body env (camera c) v = (inr (), v') ∧
                       recording_iff_encoder (me v') ∧
                       alternates (recording (me v')) (cmd_q v') =
                         Some (_recording (self w))).
  { pose proof (loop_body_raised env (camera c) v Hinv) as Hr.
    pose proof (loop_body_queue env (camera c) v) as Hq.
    pose proof (loop_body_invariant env (camera c) v) as Hi.
    destruct (loop_body env (camera c) v) as [[e|[]] v'] eqn:Hl.
    - exfalso. unfold raised in Hr. cbn in Hr.
      destruct (_cmd_q (self w)) as [|[f|] rest]; [discriminate| |].
      + rewrite Hopen in Hr. discriminate.
      + cbn in Halt. destruct (recording c) eqn:Hrec; [|discriminate].
        unfold recording_iff_encoder, encoder_open in Hinv. rewrite Hrec in Hinv.
        destruct (out c); discriminate.
    - exists v'. split; [reflexivity|]. split; [apply Hi; [exact Hinv|reflexivity]|].
      cbn in Hq. rewrite Hq. clear Hq Hr Hi.
      rewrite loop_body_eq in Hl.
      destruct (apply_command env v) as [[e|[]] v1] eqn:Ha; [discriminate|].
      assert (Hrec : recording (me v') = recording (me v1)).
      { rewrite <- (capture_frame_recording env (camera c) v1), Hl.
        reflexivity. }
      rewrite Hrec. unfold v in Ha.
      destruct (_cmd_q (self w)) as [|[f|] rest].
      + rewrite apply_command_empty in Ha. injection Ha as <-. exact Halt.
      + rewrite apply_command_start in Ha. cbn in Ha. rewrite Hopen in Ha.
        injection Ha as <-. cbn in Halt |- *.
        destruct (recording c); [discriminate|exact Halt].
      + rewrite apply_command_stop in Ha.
        destruct (out c); [|discriminate]. injection Ha as <-. cbn in Halt |- *.
        destruct (recording c); [exact Halt|discriminate]. }
  destruct Hret as (v' & Hl & Hinv' & Halt').
  rewrite Hl. exists (me v'). cbn. repeat split; assumption.
Qed.

Lemma step_in_session (ev : Event) (w : World) :
  session_event ev = true → in_session w → in_session (step ev w).
Proof.
  destruct ev as [|f| | |pid env]; cbn [session_event step]; try discriminate.
  - intros _ Hw. pose proof Hw as (c & Hps & Hinv & Halt & Hst).
    rewrite start_recording_eq, Hst. cbn.
    destruct (_recording (self w)) eqn:Hr; [exact Hw|].
    exists c. cbn. rewrite alternates_app, Halt. repeat split; assumption.
  - intros _ Hw. pose proof Hw as (c & Hps & Hinv & Halt & Hst).
    rewrite stop_recording_eq.
    destruct (_recording (self w)) eqn:Hr; [|exact Hw].
    exists c. cbn. rewrite alternates_app, Halt. repeat split; assumption.
  - apply iterate_in_session.
Qed.

Lemma steps_in_session (evs : list Event) (w : World) :
  forallb session_event evs = true → in_session w → in_session (steps evs w).
Proof.
  revert w. induction evs as [|ev evs IH]; intros w Hevs Hw; [exact Hw|].
  cbn in Hevs. apply andb_prop in Hevs as [Hev Hevs].
  rewrite steps_cons. apply IH; [exact Hevs|]. apply step_in_session; assumption.
Qed.

Lemma start_in_session (r : VideoRecorder) :
  String.length (_codec r) = 4%nat →
  _recording r = false → _cmd_q r = [] → in_session (state_after (start (fresh r))).
Proof.
  intros Hcd Hr Hq. rewrite start_eq. cbn [self fresh]. rewrite decide_True by exact Hcd.
  eexists. cbn. rewrite Hr, Hq. repeat split.
Qed.

(** X4: in a session (one [start()] that returns, the codec having four
    characters, then recordings started and stopped and loop iterations in any
    order, with every writer opening, and no second [start()] or [stop()])
    the process never ends: it takes no stop command
    without a writer to release and writes no frame without a writer to write
    to, so after any such run it is still running, recording exactly when it
    holds an open writer. *)
Theorem session_process_stays_alive (device_id : Z) (rs : Z * Z) (cd : string) (fp : Z)
    (opens : bool) (r : VideoRecorder) (evs : list Event) :
  VideoRecorder__init__ device_id rs cd fp opens = inr r →
  String.length cd = 4%nat →
  forallb session_event evs = true →
  ∃ c, processes (steps (call_start :: evs) (fresh r)) =
         [{| target := c; pstate := Alive |}] ∧
       recording_iff_encoder c ∧
       (recording c = true → ∃ vw, out c = Some vw ∧ vw_opened vw = true).
Proof.
  intros Hinit Hcd Hevs. apply VideoRecorder__init__fresh in Hinit as [_ Hr].
  assert (Hs : in_session (state_after (start (fresh r)))).
  { apply start_in_session; rewrite Hr; [exact Hcd|reflexivity|reflexivity]. }
  rewrite steps_cons.
  destruct (steps_in_session evs _ Hevs Hs) as (c & Hps & Hinv & _ & _).
  exists c. split; [exact Hps|]. split; [exact Hinv|].
  intros Hrec. unfold recording_iff_encoder, encoder_open in Hinv.
  rewrite Hrec in Hinv. destruct (out c) as [vw|]; [|discriminate].
  exists vw. split; [reflexivity|symmetry; exact Hinv].
Qed.

Lemma session_process_stays_alive_witness :
  VideoRecorder__init__ 0 default_res default_codec default_fps true = inr recorder0 ∧
  forallb session_event
    [call_start_recording "a.avi"; iterate 0 env_good; call_stop_recording;
     iterate 0 env_good] = true ∧
  ∃ c, processes (steps [call_start; call_start_recording "a.avi"; iterate 0 env_good;
                         call_stop_recording; iterate 0 env_good] (fresh recorder0)) =
         [{| target := c; pstate := Alive |}].
Proof.
  destruct (session_process_stays_alive 0 default_res default_codec default_fps true
              recorder0
              [call_start_recording "a.avi"; iterate 0 env_good; call_stop_recording;
               iterate 0 env_good] eq_refl eq_refl eq_refl) as (c & Hc & _).
  split; [reflexivity|]. split; [reflexivity|]. exists c. exact Hc.
Defined.

(** X5: in a session as above, whenever the caller is between two calls and
    the process is at the head of its loop, the recorder's [_recording] flag is
    what the process's own [recording] flag becomes once the commands still on
    the queue are applied; so at such a point the two flags agree if the queue
    is empty.  (Inside a call or an iteration they may differ: the recorder
    sets its flag before it puts the command, and the process takes the
    command before it sets its own.) *)
Theorem session_flags_agree (device_id : Z) (rs : Z * Z) (cd : string) (fp : Z)
    (opens : bool) (r : VideoRecorder) (evs : list Event) :
  VideoRecorder__init__ device_id rs cd fp opens = inr r →
  String.length cd = 4%nat →
  forallb session_event evs = true →
  ∃ c, processes (steps (call_start :: evs) (fresh r)) =
         [{| target := c; pstate := Alive |}] ∧
       alternates (recording c) (_cmd_q (self (steps (call_start :: evs) (fresh r)))) =
         Some (_recording (self (steps (call_start :: evs) (fresh r)))) ∧
       (_cmd_q (self (steps (call_start :: evs) (fresh r))) = [] →
        recording c = _recording (self (steps (call_start :: evs) (fresh r)))).
Proof.
  intros Hinit Hcd Hevs. apply VideoRecorder__init__fresh in Hinit as [_ Hr].
  assert (Hs : in_session (state_after (start (fresh r)))).
  { apply start_in_session; rewrite Hr; [exact Hcd|reflexivity|reflexivity]. }
  rewrite steps_cons.
  change (step call_start (fresh r)) with (state_after (start (fresh r))).
  destruct (steps_in_session evs _ Hevs Hs) as (c & Hps & _ & Halt & _).
  exists c. split; [exact Hps|]. split; [exact Halt|].
  intros Hq. rewrite Hq in Halt. cbn in Halt. congruence.
Qed.

Lemma session_flags_agree_witness :
  VideoRecorder__init__ 0 default_res default_codec default_fps true = inr recorder0 ∧
  forallb session_event [call_start_recording "a.avi"; iterate 0 env_good] = true ∧
  ∃ c, processes (steps [call_start; call_start_recording "a.avi"; iterate 0 env_good]
                    (fresh recorder0)) =
         [{| target := c; pstate := Alive |}] ∧
       recording c = true.
Proof.
  destruct (session_flags_agree 0 default_res default_codec default_fps true recorder0
              [call_start_recording "a.avi"; iterate 0 env_good] eq_refl eq_refl eq_refl)
    as (c & Hc & _ & Hq).
  split; [reflexivity|]. split; [reflexivity|]. exists c.
  split; [exact Hc|]. exact (Hq eq_refl).
Defined.

(** ** Frames *)

Lemma delivered_cons (camera : VideoCapture) (env : Env) (envs : list Env) :
  delivered camera (env :: envs) =
  match cap_read camera (grabbed env) with
  | (true, Some f) => f :: delivered camera envs
  | _ => delivered camera envs
  end.
Proof.
  unfold delivered, cap_read. destruct (cap_opened camera); [|reflexivity].
  cbn. destruct (grabbed env); reflexivity.
Qed.

(** X6: while a process records with an open writer and no command arrives,
    its loop never raises and the writer receives exactly the frames the
    camera delivers, each once and in the order delivered, after those it
    already held; an iteration without a frame adds nothing, and a released
    camera delivers none.  The process is still recording to the same file
    afterwards. *)
Theorem recording_writes_delivered_frames (envs : list Env) (camera : VideoCapture)
    (c : _Camera) (vw : VideoWriter) :
  recording c = true →
  out c = Some vw →
  vw_opened vw = true →
  ∃ c' vw',
    run envs camera {| me := c; cmd_q := [] |} = (inr (), {| me := c'; cmd_q := [] |}) ∧
    recording c' = true ∧
    out c' = Some vw' ∧
    vw_opened vw' = true ∧
    vw_filename vw' = vw_filename vw ∧
    vw_frames vw' = vw_frames vw ++ delivered camera envs.
Proof.
  revert c vw. induction envs as [|env envs IH]; intros c vw Hrec Hout Hopen.
  - exists c, vw.
    assert (Hnil : delivered camera [] = []).
    { unfold delivered. destruct (cap_opened camera); reflexivity. }
    rewrite Hnil, app_nil_r. repeat split; assumption.
  - rewrite run_cons, loop_body_eq, apply_command_empty, capture_frame_eq, delivered_cons.
    cbn [me]. rewrite Hrec.
    destruct (cap_read camera (grabbed env)) as [[] [f|]].
    2-4: destruct (IH c vw Hrec Hout Hopen) as (c' & vw' & H); exists c', vw'; exact H.
    rewrite Hout.
    destruct (IH (me (set_out (Some (vw_write f vw)) {| me := c; cmd_q := [] |}))
                (vw_write f vw)) as (c' & vw' & Hrun & Hr' & Ho' & Hop' & Hfn & Hfr).
    + exact Hrec.
    + reflexivity.
    + rewrite vw_write_opened. exact Hopen.
    + exists c', vw'. split; [exact Hrun|]. split; [exact Hr'|]. split; [exact Ho'|].
      split; [exact Hop'|]. unfold vw_write in Hfn, Hfr. rewrite Hopen in Hfn, Hfr.
      cbn in Hfn, Hfr. split; [exact Hfn|]. rewrite Hfr, <- app_assoc. reflexivity.
Qed.

Lemma recording_writes_delivered_frames_witness :
  recording camera_recording = true ∧
  ∃ c' vw',
    run [env_good; env_bad; env_good] {| cap_device := 0; cap_opened := true |}
      {| me := camera_recording; cmd_q := [] |} = (inr (), {| me := c'; cmd_q := [] |}) ∧
    out c' = Some vw' ∧
    vw_frames vw' = [[1; 2; 3]; [1; 2; 3]].
Proof.
  destruct (recording_writes_delivered_frames [env_good; env_bad; env_good]
              {| cap_device := 0; cap_opened := true |} camera_recording _
              eq_refl eq_refl eq_refl) as (c' & vw' & H1 & _ & H2 & _ & _ & H3).
  split; [reflexivity|]. exists c', vw'. split; [exact H1|]. split; [exact H2|exact H3].
Defined.

(** X7: a process that is not recording and finds the queue empty does
    nothing, however often it iterates: its loop returns in the very same
    state, without raising, whatever the camera and the writer would answer. *)
Theorem idle_loop_changes_nothing (envs : list Env) (camera : VideoCapture) (c : _Camera) :
  recording c = false →
  run envs camera {| me := c; cmd_q := [] |} = (inr (), {| me := c; cmd_q := [] |}).
Proof.
  intros Hrec. induction envs as [|env envs IH]; [reflexivity|].
  rewrite run_cons, loop_body_eq, apply_command_empty, capture_frame_eq.
  cbn [me]. rewrite Hrec. exact IH.
Qed.

Lemma idle_loop_changes_nothing_witness :
  recording camera_idle = false ∧
  run [env_good; env_good] {| cap_device := 0; cap_opened := true |}
    {| me := camera_idle; cmd_q := [] |} =
  (inr (), {| me := camera_idle; cmd_q := [] |}).
Proof.
  split; [reflexivity|].
  exact (idle_loop_changes_nothing [env_good; env_good]
           {| cap_device := 0; cap_opened := true |} camera_idle eq_refl).
Defined.






(** ** Processes the recorder no longer refers to *)

Lemma other_event_keeps (ev : Event) (w : World) (pid : nat) :
  (pid < length (processes w))%nat →
  _camera (self w) ≠ Some pid →
  iterates pid ev = false →
  processes (step ev w) !! pid = processes w !! pid.
Proof.
  intros Hlt Hne Hev.
  destruct ev as [|f| | |i env]; cbn [step iterates] in *.
  - rewrite start_processes, lookup_app_l by exact Hlt. reflexivity.
  - rewrite start_recording_eq.
    destruct (negb (_started (self w))); [|destruct (_recording (self w))]; reflexivity.
  - rewrite stop_recording_eq. destruct (negb (_recording (self w))); reflexivity.
  - rewrite stop_eq. destruct (negb (_started (self w))); [reflexivity|].
    cbn. destruct (_camera (self w)) as [j|] eqn:Hj; cbn; [|reflexivity].
    rewrite list_lookup_alter_ne by congruence. reflexivity.
  - apply bool_decide_eq_false in Hev. unfold worker_step.
    destruct (processes w !! i) as [q|]; [|reflexivity].
    destruct (is_alive q); [|reflexivity]. cbn.
    rewrite list_lookup_insert_ne by exact Hev. reflexivity.
Qed.

Lemma step_unreferenced (ev : Event) (w : World) (pid : nat) :
  (pid < length (processes w))%nat →
  _camera (self w) ≠ Some pid →
  (pid < length (processes (step ev w)))%nat ∧ _camera (self (step ev w)) ≠ Some pid.
Proof.
  intros Hlt Hne.
  destruct ev as [|f| | |i env]; cbn [step].
  - rewrite start_processes, length_app, start_eq. split; [lia|].
    destruct (decide (String.length (_codec (self w)) = 4%nat)); cbn; [|exact Hne].
    intros [= H]. lia.
  - rewrite start_recording_eq.
    destruct (negb (_started (self w))); [|destruct (_recording (self w))];
      split; assumption.
  - rewrite stop_recording_eq. destruct (negb (_recording (self w))); split; assumption.
  - rewrite stop_eq. destruct (negb (_started (self w))); [split; assumption|].
    cbn. destruct (_camera (self w)) as [j|] eqn:Hj; cbn; rewrite ?Hj, ?length_alter;
      split; assumption.
  - unfold worker_step. destruct (processes w !! i) as [q|]; [|split; assumption].
    destruct (is_alive q); [|split; assumption].
    cbn. rewrite length_insert. split; assumption.
Qed.

(** X9: a process the recorder's [_camera] attribute does not refer to (any
    but the one started last) is never referred to again, and from then on no
    method call and no iteration of another process changes it or ends it:
    at every later point, every event other than an iteration of the process
    itself leaves it exactly as it is.  In particular [stop()] never
    terminates the first of two processes started by two [start()] calls in a
    row; such a process ends only by an exception in its own loop. *)
Theorem unreferenced_process_changed_only_by_itself (w : World) (pid : nat) (p : Process)
    (evs : list Event) :
  processes w !! pid = Some p →
  _camera (self w) ≠ Some pid →
  _camera (self (steps evs w)) ≠ Some pid ∧
  (∀ ev, iterates pid ev = false →
     processes (step ev (steps evs w)) !! pid = processes (steps evs w) !! pid) ∧
  (forallb (λ ev, negb (iterates pid ev)) evs = true →
   processes (steps evs w) !! pid = Some p).
Proof.
  intros Hp Hne. apply lookup_lt_Some in Hp as Hlt.
  assert (Hinv : (pid < length (processes (steps evs w)))%nat ∧
                 _camera (self (steps evs w)) ≠ Some pid).
  { clear Hp. revert w Hlt Hne. induction evs as [|ev evs IH]; intros w Hlt Hne.
    - split; assumption.
    - rewrite steps_cons. destruct (step_unreferenced ev w pid Hlt Hne) as [H1 H2].
      apply IH; assumption. }
  split; [exact (proj2 Hinv)|]. split.
  - intros ev Hev. apply other_event_keeps; [exact (proj1 Hinv)|exact (proj2 Hinv)|exact Hev].
  - clear Hinv. revert w Hp Hlt Hne.
    induction evs as [|ev evs IH]; intros w Hp Hlt Hne Hevs; [exact Hp|].
    cbn in Hevs. apply andb_prop in Hevs as [Hev Hevs].
    apply negb_true_iff in Hev.
    rewrite steps_cons. destruct (step_unreferenced ev w pid Hlt Hne) as [H1 H2].
    apply IH; try assumption.
    rewrite (other_event_keeps ev w pid Hlt Hne Hev). exact Hp.
Qed.

Lemma unreferenced_process_changed_only_by_itself_witness :
  _camera (self world_started_twice) ≠ Some 0%nat ∧
  processes (steps [call_stop; iterate 1 env_good; call_start; call_stop]
               world_started_twice) !! 0%nat =
    Some {| target := camera_idle; pstate := Alive |}.
Proof.
  assert (Hne : _camera (self world_started_twice) ≠ Some 0%nat) by discriminate.
  split; [exact Hne|].
  exact (proj2 (proj2 (unreferenced_process_changed_only_by_itself world_started_twice
                         0%nat {| target := camera_idle; pstate := Alive |}
                         [call_stop; iterate 1 env_good; call_start; call_stop]
                         eq_refl Hne)) eq_refl).
Defined.

(** ** The stop command *)

(** X11: when an iteration takes [('stop',)] from the queue, the command is
    consumed in every case.  If the process never opened a writer ([out] is
    [None]) the iteration raises the attribute error of [None.release()] and
    leaves the process as it was, [recording] included; otherwise it returns
    with [recording] cleared and the writer released but still referred to by
    [out], with every frame it held, and the frame phase that follows reads
    and writes nothing.  A stop for a writer that is already released is
    harmless. *)
Theorem stop_command_spec (env : Env) (cam : VideoCapture) (c : _Camera)
    (rest : Queue) :
  cmd_q (state_after (loop_body env cam {| me := c; cmd_q := CmdStop :: rest |})) = rest ∧
  match out c with
  | None =>
      loop_body env cam {| me := c; cmd_q := CmdStop :: rest |} =
      (inl (AttributeError "release"), {| me := c; cmd_q := rest |})
  | Some vw =>
      loop_body env cam {| me := c; cmd_q := CmdStop :: rest |} =
      (inr (),
       {| me := {| res := res c; fps := fps c; codec := codec c;
                 camera := camera c; fourcc := fourcc c;
                   recording := false; out := Some (vw_release vw) |};
          cmd_q := rest |}) ∧
      vw_frames (vw_release vw) = vw_frames vw ∧
      vw_opened (vw_release vw) = false ∧
      vw_release (vw_release vw) = vw_release vw
  end.
Proof.
  split; [apply loop_body_queue|].
  rewrite loop_body_eq, apply_command_stop.
  destruct (out c) as [vw|]; [|reflexivity].
  rewrite capture_frame_eq. cbn. repeat split.
Qed.

(** ** The process table *)

Lemma step_length (ev : Event) (w : World) :
  length (processes (step ev w)) =
  (length (processes w) +
   if decide (String.length (_codec (self w)) = 4%nat) then count_starts [ev] else 0)%nat.
Proof.
  destruct ev as [|f| | |i env]; cbn [step count_starts].
  - rewrite start_processes, length_app.
    destruct (decide (String.length (_codec (self w)) = 4%nat)); reflexivity.
  - rewrite start_recording_eq.
    destruct (negb (_started (self w))); [|destruct (_recording (self w))];
      destruct (decide (String.length (_codec (self w)) = 4%nat)); cbn; lia.
  - rewrite stop_recording_eq. destruct (negb (_recording (self w)));
      destruct (decide (String.length (_codec (self w)) = 4%nat)); cbn; lia.
  - rewrite stop_eq.
    destruct (decide (String.length (_codec (self w)) = 4%nat));
      (destruct (negb (_started (self w))); [cbn; lia|]);
      cbn; destruct (_camera (self w)); cbn; rewrite ?length_alter; lia.
  - unfold worker_step.
    destruct (decide (String.length (_codec (self w)) = 4%nat));
      (destruct (processes w !! i) as [p|]; [|lia]);
      destruct (is_alive p); cbn; rewrite ?length_insert; lia.
Qed.

Lemma step_ended (ev : Event) (w : World) (pid : nat) (p : Process) :
  processes w !! pid = Some p → pstate p = Ended →
  processes (step ev w) !! pid = Some p.
Proof.
  intros Hp He. apply lookup_lt_Some in Hp as Hlt.
  destruct ev as [|f| | |i env]; cbn [step].
  - rewrite start_processes, lookup_app_l by exact Hlt. exact Hp.
  - rewrite start_recording_eq.
    destruct (negb (_started (self w))); [|destruct (_recording (self w))]; exact Hp.
  - rewrite stop_recording_eq. destruct (negb (_recording (self w))); exact Hp.
  - rewrite stop_eq. destruct (negb (_started (self w))); [exact Hp|].
    cbn. destruct (_camera (self w)) as [j|]; cbn; [|exact Hp].
    destruct (decide (pid = j)) as [->|Hne].
    + rewrite list_lookup_alter, decide_True, Hp by reflexivity. cbn.
      destruct p as [t s]. cbn in He. rewrite He. reflexivity.
    + rewrite list_lookup_alter_ne by congruence. exact Hp.
  - unfold worker_step. destruct (processes w !! i) as [q|] eqn:Hq; [|exact Hp].
    destruct (is_alive q) eqn:Ha; [|exact Hp]. cbn.
    destruct (decide (pid = i)) as [->|Hne].
    + rewrite Hp in Hq. injection Hq as <-. unfold is_alive in Ha.
      rewrite He in Ha. discriminate.
    + rewrite list_lookup_insert_ne by congruence. exact Hp.
Qed.

(** X12: processes are created by [start()] only, one per call that
    returns, and are never removed: after any run of a recorder whose codec has
    four characters the table holds as many more processes as there were calls
    of [start()], and with any other codec, where every [start()] raises, it
    holds no more than before.  A process that has ended (terminated by
    [stop()], or by an exception in its loop) is final: nothing restarts it or
    touches it again. *)
Theorem process_table_grows_by_start (evs : list Event) (w : World) :
  length (processes (steps evs w)) =
    (length (processes w) +
     if decide (String.length (_codec (self w)) = 4%nat) then count_starts evs else 0)%nat ∧
  ∀ pid p, processes w !! pid = Some p → pstate p = Ended →
    processes (steps evs w) !! pid = Some p.
Proof.
  revert w. induction evs as [|ev evs IH]; intros w.
  - split; [cbn; destruct (decide _); lia|]. intros pid p Hp _. exact Hp.
  - rewrite steps_cons. destruct (IH (step ev w)) as [Hlen Hend]. split.
    + rewrite Hlen, step_length, step_codec.
      destruct (decide (String.length (_codec (self w)) = 4%nat)); [|lia].
      destruct ev; cbn; lia.
    + intros pid p Hp He. apply Hend; [|exact He]. apply step_ended; assumption.
Qed.

(** ** After stop *)

(** X13: after a [stop()] that returned, a second [stop()] and any
    [start_recording] are refused with their invalid-state errors, but
    [stop_recording] is not guarded by [_started]: [stop()] leaves
    [_recording] and the queue as they were, so on a recorder that was stopped
    while recording [stop_recording()] still returns and puts a stop command on
    the queue, and on one that was not recording it is refused as before. *)
Theorem after_stop (w w1 : World) :
  stop w = (inr (), w1) →
  raised (stop w1) = Some (Exception msg_stop_before_start []) ∧
  (∀ f, raised (start_recording f w1) = Some (Exception msg_must_start [])) ∧
  _recording (self w1) = _recording (self w) ∧
  _cmd_q (self w1) = _cmd_q (self w) ∧
  (_recording (self w) = true →
   raised (stop_recording w1) = None ∧
   _cmd_q (self (state_after (stop_recording w1))) = _cmd_q (self w) ++ [CmdStop]) ∧
  (_recording (self w) = false →
   raised (stop_recording w1) = Some (Exception msg_not_recording [])).
Proof.
  rewrite stop_eq. destruct (negb (_started (self w))); [discriminate|]. cbn.
  destruct (_camera (self w)) as [pid|]; [|discriminate].
  intros [= <-]. split; [reflexivity|]. split.
  { intros f. rewrite start_recording_eq. reflexivity. }
  split; [reflexivity|]. split; [reflexivity|].
  rewrite stop_recording_eq. cbn. split; intros ->; cbn; repeat split.
Qed.

Lemma after_stop_witness :
  returns (stop world_recording) = true ∧
  raised (stop_recording world_stopped_recording) = None ∧
  raised (start_recording "b.avi" world_stopped_recording) =
    Some (Exception msg_must_start []).
Proof.
  pose proof (after_stop world_recording world_stopped_recording eq_refl)
    as (_ & H1 & _ & _ & H2 & _).
  split; [reflexivity|]. split; [exact (proj1 (H2 eq_refl))|exact (H1 "b.avi")].
Defined.

(** ** A recorder that was just constructed *)

(** X14: the constructor raises the device error, carrying the device id,
    exactly when the device does not open, and then returns no recorder; it
    does not look at the codec.  Otherwise the recorder it returns, with its
    empty queue and its open camera, accepts no method but [start()]:
    [start_recording] is refused because the recorder was not started,
    [stop_recording] because it is not recording, [stop] because it was not
    started, and each leaves the recorder exactly as constructed.  [start()]
    itself returns if the codec has four characters and raises a type error
    otherwise. *)
Theorem constructed_recorder_accepts_only_start (device_id : Z) (rs : Z * Z)
    (cd : string) (fp : Z) (opens : bool) :
  match VideoRecorder__init__ device_id rs cd fp opens with
  | inl e => opens = false ∧ e = DeviceOpenError device_id
  | inr r =>
      opens = true ∧
      _cmd_q r = [] ∧ cap_opened (_actual_camera r) = true ∧
      raised (start (fresh r)) =
        (if decide (String.length cd = 4%nat) then None
         else Some (TypeError "CV_FOURCC")) ∧
      (∀ f, start_recording f (fresh r) = (inl (Exception msg_must_start []), fresh r)) ∧
      stop_recording (fresh r) = (inl (Exception msg_not_recording []), fresh r) ∧
      stop (fresh r) = (inl (Exception msg_stop_before_start []), fresh r)
  end.
Proof.
  destruct opens; cbn; [|split; reflexivity].
  split; [reflexivity|]. split; [reflexivity|]. split; [reflexivity|].
  split; [apply start_raised|]. repeat split.
Qed.
